(** * Postgres warehouse client: type mapping, catalog reduction, error typing

    A shallow embedding of the Postgres warehouse adapter
    (getSSLConfigFromMode, PostgresTypes, mapFieldType,
    convertDataTypeIdToDimensionType, PostgresClient and
    PostgresWarehouseClient) together with the properties its
    specification states about it.

    Conventions of the embedding.
    - A JavaScript string is the list of bytes of its UTF-8 encoding
      ([string]); a string with a lone surrogate has no UTF-8 encoding and
      is the byte string of its generalized encoding (the surrogate as a
      three-byte sequence), which is not well-formed UTF-8. Strings are
      equal exactly when their byte strings are. [String.length] counts
      bytes, which is the program's length only for ASCII strings.
    - A [switch] over string or number labels is a chain of decidable
      membership tests, one per group of fall-through labels, in source
      order.
    - A plain JavaScript object is the finite map [gmap string V] of its own
      properties. Methods are entered in the standard realm: [Object.prototype]
      has the properties the language gives it and no others. Reading a
      property of a plain object under one of those names finds the
      inherited value; where the code does that and goes on to write into
      what it found, the embedding gives the result [Exotic] and lets the
      world decide whether a [TypeError] is thrown, and says nothing more.
    - A [Set<string>] is the list of its elements in insertion order.
    - The pooled-connection library and the SSH library are an oracle
      ([World]) whose answers may depend on the calls made so far; every call
      to them is appended to a log, so that "no query is executed" and "no
      retry" are statements about that log.
    - A [number] that is a type OID or a port is an integer ([Z]). *)

From Stdlib Require Import ZArith Ascii String List.
From stdpp Require Import base decidable option list strings gmap fin_maps.

Local Open Scope string_scope.
Local Open Scope Z_scope.
Local Open Scope list_scope.

#[local] Set Warnings "-clear-no-such-hyp".

(** ** The common type taxonomy *)

(** Modelled from the spec: the enum DimensionType of the common package is
    imported by the adapter but declared elsewhere; the specification lists
    its members as NUMBER, DATE, TIMESTAMP, BOOLEAN, STRING. *)
Module DimensionType.
Inductive t : Set := STRING | NUMBER | TIMESTAMP | DATE | BOOLEAN.

#[global] Instance eq_dec : EqDecision t.
Proof. solve_decision. Defined.

Definition all : list t := [NUMBER; DATE; TIMESTAMP; BOOLEAN; STRING].
End DimensionType.

(** ** Warehouse type names (enum PostgresTypes) *)

Module PostgresTypes.
Definition INTEGER := "integer".
Definition INT := "int".
Definition INT2 := "int2".
Definition INT4 := "int4".
Definition INT8 := "int8".
Definition MONEY := "money".
Definition SMALLSERIAL := "smallserial".
Definition SERIAL := "serial".
Definition SERIAL2 := "serial2".
Definition SERIAL4 := "serial4".
Definition SERIAL8 := "serial8".
Definition BIGSERIAL := "bigserial".
Definition BIGINT := "bigint".
Definition SMALLINT := "smallint".
Definition BOOLEAN := "boolean".
Definition BOOL := "bool".
Definition DATE := "date".
Definition DOUBLE_PRECISION := "double precision".
Definition FLOAT := "float".
Definition FLOAT4 := "float4".
Definition FLOAT8 := "float8".
Definition JSON := "json".
Definition JSONB := "jsonb".
Definition NUMERIC := "numeric".
Definition DECIMAL := "decimal".
Definition REAL := "real".
Definition CHAR := "char".
Definition CHARACTER := "character".
Definition NCHAR := "nchar".
Definition BPCHAR := "bpchar".
Definition VARCHAR := "varchar".
Definition CHARACTER_VARYING := "character varying".
Definition NVARCHAR := "nvarchar".
Definition TEXT := "text".
Definition TIME := "time".
Definition TIME_TZ := "timetz".
Definition TIME_WITHOUT_TIME_ZONE := "time without time zone".
Definition TIMESTAMP := "timestamp".
Definition TIMESTAMP_TZ := "timestamptz".
Definition TIMESTAMP_WITHOUT_TIME_ZONE := "timestamp without time zone".
End PostgresTypes.

(** The four groups of case labels of [mapFieldType], in source order. *)
Definition mapFieldType_NUMBER_cases : list string :=
  [ PostgresTypes.DECIMAL; PostgresTypes.NUMERIC; PostgresTypes.INTEGER;
    PostgresTypes.MONEY; PostgresTypes.SMALLSERIAL; PostgresTypes.SERIAL;
    PostgresTypes.SERIAL2; PostgresTypes.SERIAL4; PostgresTypes.SERIAL8;
    PostgresTypes.BIGSERIAL; PostgresTypes.INT2; PostgresTypes.INT4;
    PostgresTypes.INT8; PostgresTypes.BIGINT; PostgresTypes.SMALLINT;
    PostgresTypes.FLOAT; PostgresTypes.FLOAT4; PostgresTypes.FLOAT8;
    PostgresTypes.DOUBLE_PRECISION; PostgresTypes.REAL ].

Definition mapFieldType_DATE_cases : list string := [ PostgresTypes.DATE ].

Definition mapFieldType_TIMESTAMP_cases : list string :=
  [ PostgresTypes.TIME; PostgresTypes.TIME_TZ; PostgresTypes.TIMESTAMP;
    PostgresTypes.TIMESTAMP_TZ; PostgresTypes.TIME_WITHOUT_TIME_ZONE;
    PostgresTypes.TIMESTAMP_WITHOUT_TIME_ZONE ].

Definition mapFieldType_BOOLEAN_cases : list string :=
  [ PostgresTypes.BOOLEAN; PostgresTypes.BOOL ].

Definition mapFieldType (ty : string) : DimensionType.t :=
  if bool_decide (ty ∈ mapFieldType_NUMBER_cases) then DimensionType.NUMBER
  else if bool_decide (ty ∈ mapFieldType_DATE_cases) then DimensionType.DATE
  else if bool_decide (ty ∈ mapFieldType_TIMESTAMP_cases)
       then DimensionType.TIMESTAMP
  else if bool_decide (ty ∈ mapFieldType_BOOLEAN_cases)
       then DimensionType.BOOLEAN
  else DimensionType.STRING.

(** All the labels of the case table of [mapFieldType]. *)
Definition mapFieldType_cases : list string :=
  mapFieldType_NUMBER_cases ++ mapFieldType_DATE_cases
  ++ mapFieldType_TIMESTAMP_cases ++ mapFieldType_BOOLEAN_cases.

(** ** Type OIDs (pg.types.builtins) *)

(** The OID constants of the driver's [builtins] table that the adapter
    names. The table belongs to the driver, not to this repository; the
    values are those of the Postgres system catalog. No property below
    depends on the particular numbers except the concrete examples. *)
Module builtins.
Definition BOOL : Z := 16.
Definition INT8 : Z := 20.
Definition INT2 : Z := 21.
Definition INT4 : Z := 23.
Definition FLOAT4 : Z := 700.
Definition FLOAT8 : Z := 701.
Definition MONEY : Z := 790.
Definition DATE : Z := 1082.
Definition TIME : Z := 1083.
Definition TIMESTAMP : Z := 1114.
Definition TIMESTAMPTZ : Z := 1184.
Definition TIMETZ : Z := 1266.
Definition NUMERIC : Z := 1700.
End builtins.

Definition convert_NUMBER_cases : list Z :=
  [ builtins.NUMERIC; builtins.MONEY; builtins.INT2; builtins.INT4;
    builtins.INT8; builtins.FLOAT4; builtins.FLOAT8 ].

Definition convert_DATE_cases : list Z := [ builtins.DATE ].

Definition convert_TIMESTAMP_cases : list Z :=
  [ builtins.TIME; builtins.TIMETZ; builtins.TIMESTAMP; builtins.TIMESTAMPTZ ].

Definition convert_BOOLEAN_cases : list Z := [ builtins.BOOL ].

Definition convertDataTypeIdToDimensionType (dataTypeId : Z) : DimensionType.t :=
  if bool_decide (dataTypeId ∈ convert_NUMBER_cases) then DimensionType.NUMBER
  else if bool_decide (dataTypeId ∈ convert_DATE_cases) then DimensionType.DATE
  else if bool_decide (dataTypeId ∈ convert_TIMESTAMP_cases)
       then DimensionType.TIMESTAMP
  else if bool_decide (dataTypeId ∈ convert_BOOLEAN_cases)
       then DimensionType.BOOLEAN
  else DimensionType.STRING.

Definition convert_cases : list Z :=
  convert_NUMBER_cases ++ convert_DATE_cases
  ++ convert_TIMESTAMP_cases ++ convert_BOOLEAN_cases.

(** ** Errors and outcomes *)

(** The classes of the error objects that occur: the plain [Error] of the
    language and of the libraries, the two typed warehouse errors, and the
    [URIError] and [TypeError] of the language. *)
Inductive ErrorClass : Set :=
  | Error | WarehouseConnectionError | WarehouseQueryError
  | URIError | TypeError.

#[global] Instance ErrorClass_eq_dec : EqDecision ErrorClass.
Proof. solve_decision. Defined.

Record JsError : Set := mkError { errorClass : ErrorClass; message : string }.

#[global] Instance JsError_eq_dec : EqDecision JsError.
Proof. solve_decision. Defined.

(** How a call ends: it returns a value or throws an error object. *)
Inductive Outcome (A : Type) : Type :=
  | Returned (a : A)
  | Thrown (e : JsError).
Arguments Returned {A} a.
Arguments Thrown {A} e.

(** ** SSL modes *)

(** The values of [PoolConfig['ssl']] the adapter produces: a boolean or a
    connection-options object with its [rejectUnauthorized] field. *)
Inductive SSLConfig : Set :=
  | SslBool (b : bool)
  | SslOptions (rejectUnauthorized : bool).

#[global] Instance SSLConfig_eq_dec : EqDecision SSLConfig.
Proof. solve_decision. Defined.

Definition dquote : string := String (ascii_of_nat 34) EmptyString.

Definition getSSLConfigFromMode_truthy_cases : list string :=
  [ "allow"; "prefer"; "require"; "verify-ca"; "verify-full" ].

Definition getSSLConfigFromMode (mode : string) : Outcome SSLConfig :=
  if bool_decide (mode = "disable") then Returned (SslBool false)
  else if bool_decide (mode = "no-verify") then Returned (SslOptions false)
  else if bool_decide (mode ∈ getSSLConfigFromMode_truthy_cases)
       then Returned (SslBool true)
  else Thrown (mkError Error
                 ("SSL mode " +:+ dquote +:+ mode +:+ dquote +:+ " not understood.")).

(** ** encodeURIComponent *)

(** The language's built-in percent-encoding. On a well-formed string it
    works on the UTF-8 bytes: letters, digits and the marks
    [- _ . ! ~ * ' ( )] are kept, every other byte becomes [%XX] with
    upper-case hexadecimal digits ([Encode]). On a string with a lone
    surrogate it throws a [URIError]. *)
Definition uriMark : list ascii := list_ascii_of_string "-_.!~*'()".

Definition uriUnreserved (c : ascii) : bool :=
  let n := N_of_ascii c in
  ((65 <=? n) && (n <=? 90))%N || ((97 <=? n) && (n <=? 122))%N
  || ((48 <=? n) && (n <=? 57))%N || bool_decide (c ∈ uriMark).

Definition hexDigit (n : N) : ascii :=
  nth (N.to_nat n) (list_ascii_of_string "0123456789ABCDEF") "0"%char.

Definition percentEncode (c : ascii) : string :=
  let n := N_of_ascii c in
  String "%"%char (String (hexDigit (n / 16)) (String (hexDigit (n mod 16)) EmptyString)).

Fixpoint Encode (s : string) : string :=
  match s with
  | EmptyString => EmptyString
  | String c rest =>
      if uriUnreserved c then String c (Encode rest)
      else percentEncode c +:+ Encode rest
  end.

(** [lo <= c <= hi] on the value of a byte. *)
Definition byteIn (lo hi : N) (c : ascii) : bool :=
  ((lo <=? N_of_ascii c) && (N_of_ascii c <=? hi))%N.

(** A continuation byte of UTF-8. *)
Definition continuation (c : ascii) : bool := byteIn 128 191 c.

(** The byte string is well-formed UTF-8 (the Unicode Standard's table of
    well-formed byte sequences): in particular it encodes no surrogate,
    whose three bytes would start with [ED A0]..[ED BF]. *)
Fixpoint wellFormed (s : string) : bool :=
  match s with
  | EmptyString => true
  | String b0 r0 =>
      if byteIn 0 127 b0 then wellFormed r0
      else
        match r0 with
        | EmptyString => false
        | String b1 r1 =>
            if byteIn 194 223 b0 then continuation b1 && wellFormed r1
            else
              match r1 with
              | EmptyString => false
              | String b2 r2 =>
                  if byteIn 224 224 b0
                  then byteIn 160 191 b1 && continuation b2 && wellFormed r2
                  else if byteIn 225 236 b0 || byteIn 238 239 b0
                  then continuation b1 && continuation b2 && wellFormed r2
                  else if byteIn 237 237 b0
                  then byteIn 128 159 b1 && continuation b2 && wellFormed r2
                  else
                    match r2 with
                    | EmptyString => false
                    | String b3 r3 =>
                        if byteIn 240 240 b0
                        then byteIn 144 191 b1 && continuation b2
                             && continuation b3 && wellFormed r3
                        else if byteIn 241 243 b0
                        then continuation b1 && continuation b2
                             && continuation b3 && wellFormed r3
                        else if byteIn 244 244 b0
                        then byteIn 128 143 b1 && continuation b2
                             && continuation b3 && wellFormed r3
                        else false
                    end
              end
        end
  end.

(** The message is the engine's (V8). *)
Definition encodeURIComponent (s : string) : Outcome string :=
  if wellFormed s then Returned (Encode s)
  else Thrown (mkError URIError "URI malformed").

(** ** Configuration records *)

Module SSHTunnelConfigSecrets.
Record t : Set := mk
  { username : string; privateKey : string; port : Z; host : string }.
End SSHTunnelConfigSecrets.

Module SSHConfig.
Record t : Set := mk
  { username : string; privateKey : string; port : Z; host : string }.
End SSHConfig.

(** [SupportedPoolConfig]: the six options of the pool the adapter sets;
    [ssl] is [None] when it is [undefined]. *)
Module PoolConfig.
Record t : Set := mk
  { host : string; port : Z; database : string; user : string;
    password : string; ssl : option SSLConfig }.
End PoolConfig.

(** The fields of [FullPostgresCredentials] the adapter reads; the optional
    ones are [None] when absent. *)
Module FullPostgresCredentials.
Record t : Set := mk
  { host : string; port : Z; dbname : string; user : string;
    password : string; sslmode : option string;
    sshTunnel : option SSHTunnelConfigSecrets.t }.
End FullPostgresCredentials.

(** ** Query results *)

(** A result row is an object keyed by column name. *)
Abbreviation Row := (gmap string string).

(** One entry of [results.fields]. *)
Module FieldDef.
Record t : Set := mk { name : string; dataTypeID : Z }.
End FieldDef.

Module QueryResult.
Record t : Type := mk { fields : list FieldDef.t; rows : list Row }.
End QueryResult.

(** The per-column metadata object [{ type: ... }]. *)
Record FieldInfo : Set := mkFieldInfo { type : DimensionType.t }.

(** What [runQuery] returns: [{ fields, rows }]. *)
Module RunQueryResult.
Record t : Type := mk { fields : gmap string FieldInfo; rows : list Row }.
End RunQueryResult.

(** ** The libraries as an oracle, and the monad of calls *)

(** A pool is identified with the configuration it was created from. *)
Abbreviation Pool := PoolConfig.t (only parsing).

(** The calls the adapter makes to the two libraries. *)
Inductive Call : Type :=
  | SshConnect (cfg : SSHConfig.t)
  | SshAddTunnel (cfg : SSHConfig.t) (remoteAddr : string) (remotePort : Z)
  | NewPool (cfg : PoolConfig.t)
  | PoolQuery (pool : Pool) (sql : string).

(** A library call fails with an error message or answers. *)
Inductive Reply (A : Type) : Type :=
  | Fails (msg : string)
  | Answers (a : A).
Arguments Fails {A} msg.
Arguments Answers {A} a.

(** The behaviour of the libraries; each answer may depend on the log of
    the calls made before. [addTunnel] answers the tunnel's local port.
    The last field is the realm's part: whether the writes of the catalog
    reduction for the given requested rows, one of which names a property
    that objects inherit, end in a [TypeError] (with this message) or run
    to their end. *)
Record World : Type := mkWorld
  { ssh_connect : list Call → SSHConfig.t → Reply unit;
    ssh_addTunnel : list Call → SSHConfig.t → string → Z → Reply Z;
    pg_Pool : list Call → PoolConfig.t → Reply unit;
    pool_query : list Call → Pool → string → Reply QueryResult.t;
    exotic_reduce : list Call → list Row → Reply unit }.

(** Computations that log their library calls and may throw. *)
Definition M (A : Type) : Type := list Call → Outcome A * list Call.

#[global] Instance M_ret : MRet M := λ A a log, (Returned a, log).

#[global] Instance M_bind : MBind M := λ A B k m log,
  match m log with
  | (Returned a, log') => k a log'
  | (Thrown e, log') => (Thrown e, log')
  end.

Definition throw {A} (e : JsError) : M A := λ log, (Thrown e, log).

(** [try { body } catch (e) { handler e }]. *)
Definition try_catch {A} (body : M A) (handler : JsError → M A) : M A :=
  λ log,
    match body log with
    | (Returned a, log') => (Returned a, log')
    | (Thrown e, log') => handler e log'
    end.

(** One library call: logged, then answered by the oracle from the log as
    it was before the call; a failure is thrown as a plain [Error]. *)
Definition perform {A} (c : Call) (answer : list Call → Reply A) : M A :=
  λ log,
    match answer log with
    | Answers a => (Returned a, log ++ [c])
    | Fails msg => (Thrown (mkError Error msg), log ++ [c])
    end.

(** Lifting of a pure call that may throw. *)
Definition lift {A} (o : Outcome A) : M A := λ log, (o, log).

(** ** getCatalog: requests, the three sets, the query text, the reduction *)

(** One entry of the [requests] argument of [getCatalog]. *)
Module Request.
Record t : Set := mk { database : string; schema : string; table : string }.

#[global] Instance eq_dec : EqDecision t.
Proof. solve_decision. Defined.
End Request.

(** [Set.prototype.add]: a new element goes last, a present one changes
    nothing. *)
Definition Set_add (s : list string) (x : string) : list string :=
  if bool_decide (x ∈ s) then s else s ++ [x].

(** The template [`'${v}'`]. *)
Definition quoted (v : string) : string := "'" +:+ v +:+ "'".

(** The accumulator of the first reduction of [getCatalog]. *)
Module RequestSets.
Record t : Set := mk
  { databases : list string; schemas : list string; tables : list string }.
End RequestSets.

Definition requestSets (requests : list Request.t) : RequestSets.t :=
  foldl
    (λ acc r,
       RequestSets.mk
         (Set_add (RequestSets.databases acc) (quoted (Request.database r)))
         (Set_add (RequestSets.schemas acc) (quoted (Request.schema r)))
         (Set_add (RequestSets.tables acc) (quoted (Request.table r))))
    (RequestSets.mk [] [] [])
    requests.

(** An array interpolated in a template: its elements joined by commas. *)
Definition Array_toString (l : list string) : string := String.concat "," l.

Definition newline : string := String (ascii_of_nat 10) EmptyString.

Definition spaces (n : nat) : string := string_of_list_ascii (repeat " "%char n).

(** The text of the catalog query, line by line as in the template. *)
Definition catalogQuery (sets : RequestSets.t) : string :=
  newline +:+ spaces 12 +:+ "SELECT table_catalog,"
  +:+ newline +:+ spaces 19 +:+ "table_schema,"
  +:+ newline +:+ spaces 19 +:+ "table_name,"
  +:+ newline +:+ spaces 19 +:+ "column_name,"
  +:+ newline +:+ spaces 19 +:+ "data_type"
  +:+ newline +:+ spaces 12 +:+ "FROM information_schema.columns"
  +:+ newline +:+ spaces 12 +:+ "WHERE table_catalog IN ("
      +:+ Array_toString (RequestSets.databases sets) +:+ ")"
  +:+ newline +:+ spaces 14 +:+ "AND table_schema IN ("
      +:+ Array_toString (RequestSets.schemas sets) +:+ ")"
  +:+ newline +:+ spaces 14 +:+ "AND table_name IN ("
      +:+ Array_toString (RequestSets.tables sets) +:+ ")"
  +:+ newline +:+ spaces 8.

(** The nested object [getCatalog] returns:
    catalog, schema, table, column, type. *)
Abbreviation Columns := (gmap string DimensionType.t).
Abbreviation Tables := (gmap string (gmap string DimensionType.t)).
Abbreviation Schemas := (gmap string (gmap string (gmap string DimensionType.t))).
Abbreviation Catalog :=
  (gmap string (gmap string (gmap string (gmap string DimensionType.t)))).

(** A destructured property that the row lacks is [undefined]; used as a
    property key it is the key "undefined". *)
Definition propertyKey (v : option string) : string := default "undefined" v.

(** The predicate of [requests.find] for a row's three destructured values. *)
Definition requestMatches (table_catalog table_schema table_name : option string)
    (r : Request.t) : bool :=
  bool_decide (Some (Request.database r) = table_catalog)
  && bool_decide (Some (Request.schema r) = table_schema)
  && bool_decide (Some (Request.table r) = table_name).

(** The property names every plain object inherits from [Object.prototype]
    in the standard realm. *)
Definition inheritedNames : list string :=
  [ "constructor"; "__defineGetter__"; "__defineSetter__"; "hasOwnProperty";
    "__lookupGetter__"; "__lookupSetter__"; "isPrototypeOf";
    "propertyIsEnumerable"; "toString"; "valueOf"; "__proto__";
    "toLocaleString" ].

Definition inherited (key : string) : bool := bool_decide (key ∈ inheritedNames).

(** The accumulator of the second reduction of [getCatalog], and its
    result: a plain nested object, given by its own properties, or
    [Exotic]: a requested row has named a property that objects inherit
    as its catalog, schema or table, so that [acc[..] || {}] found
    [Object.prototype] or a built-in function and the code wrote into it.
    What the accumulator then is (it may share structure with
    [Object.prototype] or the global [Object]) is not modelled. *)
Inductive CatalogObject : Type :=
  | Plain (own : Catalog)
  | Exotic.

(** The empty object. *)
#[global] Instance CatalogObject_empty : Empty CatalogObject := Plain ∅.

#[global] Instance CatalogObject_eq_dec : EqDecision CatalogObject.
Proof. solve_decision. Defined.

(** [columns[key] = value] on a plain object: an own property is set,
    except under the key [__proto__], where the inherited setter is called
    and does nothing with a value that is not an object. *)
Definition setColumn (key : string) (value : DimensionType.t) (columns : Columns)
    : Columns :=
  if bool_decide (key = "__proto__") then columns else <[key := value]> columns.

(** The callback of the second reduction of [getCatalog]. *)
Definition catalogStep (requests : list Request.t) (acc : CatalogObject)
    (row : Row) : CatalogObject :=
  let table_catalog := row !! "table_catalog" in
  let table_schema := row !! "table_schema" in
  let table_name := row !! "table_name" in
  let column_name := row !! "column_name" in
  let data_type := row !! "data_type" in
  match find (requestMatches table_catalog table_schema table_name) requests with
  | Some _ =>
      let c := propertyKey table_catalog in
      let s := propertyKey table_schema in
      let t := propertyKey table_name in
      match acc with
      | Plain acc =>
          if inherited c || inherited s || inherited t then Exotic
          else
            let acc := <[c := default ∅ (acc !! c)]> acc in
            let acc :=
              alter (λ schemas : Schemas, <[s := default ∅ (schemas !! s)]> schemas)
                    c acc in
            let acc :=
              alter
                (alter (λ tables : Tables, <[t := default ∅ (tables !! t)]> tables) s)
                c acc in
            Plain
              (alter
                 (alter
                    (alter
                       (setColumn (propertyKey column_name)
                          (from_option mapFieldType DimensionType.STRING data_type))
                       t)
                    s)
                 c acc)
      | Exotic => Exotic
      end
  | None => acc
  end.

Definition catalogOfRows (requests : list Request.t) (rows : list Row)
    : CatalogObject :=
  foldl (catalogStep requests) ∅ rows.

(** ** class PostgresClient *)

Module PostgresClient.

Record t : Set := mk
  { config : PoolConfig.t; sshTunnel : option SSHTunnelConfigSecrets.t }.

Section Methods.
Variable w : World.
Variable this : t.

Definition connect : M Pool :=
  try_catch
    (config ←
       match sshTunnel this with
       | Some tunnelSecrets =>
           let sshConfig :=
             SSHConfig.mk
               (SSHTunnelConfigSecrets.username tunnelSecrets)
               (SSHTunnelConfigSecrets.privateKey tunnelSecrets)
               (SSHTunnelConfigSecrets.port tunnelSecrets)
               (SSHTunnelConfigSecrets.host tunnelSecrets) in
           _ ← perform (SshConnect sshConfig)
                       (λ log, ssh_connect w log sshConfig);
           localPort ←
             perform
               (SshAddTunnel sshConfig (PoolConfig.host (config this))
                             (PoolConfig.port (config this)))
               (λ log, ssh_addTunnel w log sshConfig
                         (PoolConfig.host (config this))
                         (PoolConfig.port (config this)));
           mret (PoolConfig.mk "localhost" localPort
                   (PoolConfig.database (config this))
                   (PoolConfig.user (config this))
                   (PoolConfig.password (config this))
                   (PoolConfig.ssl (config this)))
       | None => mret (config this)
       end;
     _ ← perform (NewPool config) (λ log, pg_Pool w log config);
     mret config)
    (λ e, throw (mkError WarehouseConnectionError (message e))).

(** The reduction of [results.fields] into the [fields] record. *)
Definition fieldsRecord (fields : list FieldDef.t) : gmap string FieldInfo :=
  foldl
    (λ acc f,
       <[FieldDef.name f :=
           mkFieldInfo (convertDataTypeIdToDimensionType (FieldDef.dataTypeID f))]>
         acc)
    ∅ fields.

Definition runQuery (sql : string) : M RunQueryResult.t :=
  try_catch
    (pool ← connect;
     results ← perform (PoolQuery pool sql) (λ log, pool_query w log pool sql);
     let fields := fieldsRecord (QueryResult.fields results) in
     mret (RunQueryResult.mk fields (QueryResult.rows results)))
    (λ e, throw (mkError WarehouseQueryError (message e))).

Definition test : M unit :=
  _ ← runQuery "SELECT 1";
  mret tt.

(** [rows.reduce(...)]: a plain result is returned; for an exotic one the
    world tells whether the writes of the requested rows threw. *)
Definition reduceRows (requests : list Request.t) (rows : list Row)
    : M CatalogObject :=
  λ log,
    match catalogOfRows requests rows with
    | Plain own => (Returned (Plain own), log)
    | Exotic =>
        match exotic_reduce w log
                (filter (λ row,
                           is_Some (find (requestMatches (row !! "table_catalog")
                                            (row !! "table_schema")
                                            (row !! "table_name")) requests))
                        rows) with
        | Answers _ => (Returned Exotic, log)
        | Fails msg => (Thrown (mkError TypeError msg), log)
        end
    end.

Definition getCatalog (requests : list Request.t) : M CatalogObject :=
  let sets := requestSets requests in
  if (length (RequestSets.databases sets) <=? 0)%nat
     || (length (RequestSets.schemas sets) <=? 0)%nat
     || (length (RequestSets.tables sets) <=? 0)%nat
  then mret ∅
  else
    let query := catalogQuery sets in
    result ← runQuery query;
    reduceRows requests (RunQueryResult.rows result).
End Methods.

End PostgresClient.

(** ** class PostgresWarehouseClient *)

Module PostgresWarehouseClient.

(** Truthiness of an optional string: absent and empty are falsy. *)
Definition truthy (v : option string) : bool :=
  match v with
  | Some (String _ _) => true
  | _ => false
  end.

(** Sequencing of calls that may throw. *)
Definition andThen {A B} (o : Outcome A) (k : A → Outcome B) : Outcome B :=
  match o with
  | Returned a => k a
  | Thrown e => Thrown e
  end.

(** The constructor; it throws what [getSSLConfigFromMode] throws, or else
    what the first failing [encodeURIComponent] throws, in the order in
    which the object literal evaluates them. *)
Definition constructor (credentials : FullPostgresCredentials.t)
    : Outcome PostgresClient.t :=
  let ssl : Outcome (option SSLConfig) :=
    if truthy (FullPostgresCredentials.sslmode credentials)
    then andThen
           (getSSLConfigFromMode
              (default EmptyString (FullPostgresCredentials.sslmode credentials)))
           (λ v, Returned (Some v))
    else Returned None in
  andThen ssl (λ ssl,
  andThen (encodeURIComponent (FullPostgresCredentials.host credentials)) (λ host,
  andThen (encodeURIComponent (FullPostgresCredentials.dbname credentials)) (λ database,
  andThen (encodeURIComponent (FullPostgresCredentials.user credentials)) (λ user,
  andThen (encodeURIComponent (FullPostgresCredentials.password credentials)) (λ password,
    Returned
      (PostgresClient.mk
         (PoolConfig.mk host (FullPostgresCredentials.port credentials)
                        database user password ssl)
         (FullPostgresCredentials.sshTunnel credentials))))))).

End PostgresWarehouseClient.

(** * Definitions used by the properties *)

(** ** Reading the code's values *)

(** The seven mode strings the switch of [getSSLConfigFromMode] names. *)
Definition sslModes : list string :=
  [ "disable"; "no-verify"; "allow"; "prefer"; "require"; "verify-ca";
    "verify-full" ].

(** Duplicate removal that keeps each value at its first occurrence: the
    head stays, its later copies go. *)
Fixpoint dedupFirstOccurrence (l : list string) : list string :=
  match l with
  | [] => []
  | x :: l' => x :: filter (λ y, y ≠ x) (dedupFirstOccurrence l')
  end.


Definition tableAt (catalog : Catalog) (c s t : string) : option Columns :=
  schemas ← catalog !! c;
  tables ← schemas !! s;
  tables !! t.

Definition typeAt (catalog : Catalog) (c s t col : string)
    : option DimensionType.t :=
  schemas ← catalog !! c;
  tables ← schemas !! s;
  columns ← tables !! t;
  columns !! col.

(** ** Rows and requests *)

(** The five columns of a catalog row. *)
Definition hasColumns (row : Row) (c s t col ty : string) : Prop :=
  row !! "table_catalog" = Some c
  ∧ row !! "table_schema" = Some s
  ∧ row !! "table_name" = Some t
  ∧ row !! "column_name" = Some col
  ∧ row !! "data_type" = Some ty.

(** The row's triple equals the triple of the request. *)
Definition tripleEquals (row : Row) (r : Request.t) : Prop :=
  row !! "table_catalog" = Some (Request.database r)
  ∧ row !! "table_schema" = Some (Request.schema r)
  ∧ row !! "table_name" = Some (Request.table r).

#[global] Instance tripleEquals_dec row r : Decision (tripleEquals row r).
Proof. unfold tripleEquals. apply _. Defined.

(** The row's triple equals the triple of at least one request. *)
Definition rowRequested (requests : list Request.t) (row : Row) : Prop :=
  Exists (tripleEquals row) requests.

#[global] Instance rowRequested_dec requests row :
  Decision (rowRequested requests row).
Proof. unfold rowRequested. apply _. Defined.

(** The key and the value the reduction writes for a row. *)
Definition columnKey (row : Row) : string := propertyKey (row !! "column_name").

Definition rowType (row : Row) : DimensionType.t :=
  from_option mapFieldType DimensionType.STRING (row !! "data_type").

(** The row is requested and is written at [catalog[c][s][t][col]]. *)
Definition writesTo (requests : list Request.t) (c s t col : string) (row : Row)
    : Prop :=
  rowRequested requests row
  ∧ row !! "table_catalog" = Some c
  ∧ row !! "table_schema" = Some s
  ∧ row !! "table_name" = Some t
  ∧ columnKey row = col.

#[global] Instance writesTo_dec requests c s t col row :
  Decision (writesTo requests c s t col row).
Proof. unfold writesTo. apply _. Defined.

(** The row is requested, names that column, and the column is stored: its
    name is not [__proto__]. *)
Definition storesAt (requests : list Request.t) (c s t col : string) (row : Row)
    : Prop :=
  writesTo requests c s t col row ∧ col ≠ "__proto__".

#[global] Instance storesAt_dec requests c s t col row :
  Decision (storesAt requests c s t col row).
Proof. unfold storesAt. apply _. Defined.

(** The row names, as its catalog, schema or table, a property that
    objects inherit. *)
Definition namesInherited (row : Row) : bool :=
  inherited (propertyKey (row !! "table_catalog"))
  || inherited (propertyKey (row !! "table_schema"))
  || inherited (propertyKey (row !! "table_name")).

(** A requested row that does so: the reduction leaves the plain objects. *)
Definition exoticRow (requests : list Request.t) (row : Row) : Prop :=
  rowRequested requests row ∧ namesInherited row = true.

#[global] Instance exoticRow_dec requests row : Decision (exoticRow requests row).
Proof. unfold exoticRow. apply _. Defined.

(** No requested row names an inherited property as its catalog, schema
    or table. *)
Definition plainRows (requests : list Request.t) (rows : list Row) : Prop :=
  Forall (λ row, ¬ exoticRow requests row) rows.

#[global] Instance plainRows_dec requests rows : Decision (plainRows requests rows).
Proof. unfold plainRows. apply _. Defined.

(** Nor is the column of a requested row named [__proto__]. *)
Definition ordinaryRows (requests : list Request.t) (rows : list Row) : Prop :=
  Forall (λ row,
            rowRequested requests row →
            namesInherited row = false ∧ columnKey row ≠ "__proto__")
         rows.

#[global] Instance ordinaryRows_dec requests rows :
  Decision (ordinaryRows requests rows).
Proof. unfold ordinaryRows. apply _. Defined.

(** The four assignments of one step, for names that are stored as own
    properties, as one nested update of the own properties. *)
Definition writeRow (own : Catalog) (c s t col : string) (v : DimensionType.t)
    : Catalog :=
  let schemas : Schemas := default ∅ (own !! c) in
  let tables : Tables := default ∅ (schemas !! s) in
  let columns : Columns := default ∅ (tables !! t) in
  <[c := <[s := <[t := setColumn col v columns]> tables]> schemas]> own.

(** One step on the own properties of a plain accumulator. *)
Definition ownStep (requests : list Request.t) (own : Catalog) (row : Row)
    : Catalog :=
  if decide (rowRequested requests row)
  then writeRow own (propertyKey (row !! "table_catalog"))
                (propertyKey (row !! "table_schema"))
                (propertyKey (row !! "table_name"))
                (columnKey row) (rowType row)
  else own.

(** The own properties of the result of the reduction, when it is plain. *)
Definition ownCatalog (requests : list Request.t) (rows : list Row) : Catalog :=
  foldl (ownStep requests) ∅ rows.

(** ** The steps of connect and the kinds of calls *)

(** The SSH configuration [connect] builds from the tunnel settings. *)
Definition sshConfigOf (tunnel : SSHTunnelConfigSecrets.t) : SSHConfig.t :=
  SSHConfig.mk
    (SSHTunnelConfigSecrets.username tunnel)
    (SSHTunnelConfigSecrets.privateKey tunnel)
    (SSHTunnelConfigSecrets.port tunnel)
    (SSHTunnelConfigSecrets.host tunnel).

(** The pool configuration behind a tunnel with the given local port. *)
Definition tunnelledConfig (this : PostgresClient.t) (localPort : Z)
    : PoolConfig.t :=
  PoolConfig.mk "localhost" localPort
    (PoolConfig.database (PostgresClient.config this))
    (PoolConfig.user (PostgresClient.config this))
    (PoolConfig.password (PostgresClient.config this))
    (PoolConfig.ssl (PostgresClient.config this)).

(** The last step of [connect]: the pool is created. *)
Definition createPool (w : World) (config : PoolConfig.t) (log : list Call)
    : Outcome Pool * list Call :=
  match pg_Pool w log config with
  | Answers _ => (Returned config, log ++ [NewPool config])
  | Fails msg =>
      (Thrown (mkError WarehouseConnectionError msg), log ++ [NewPool config])
  end.

Inductive CallKind : Set :=
  | KSshConnect | KSshAddTunnel | KNewPool | KPoolQuery.

#[global] Instance CallKind_eq_dec : EqDecision CallKind.
Proof. solve_decision. Defined.

Definition callKind (c : Call) : CallKind :=
  match c with
  | SshConnect _ => KSshConnect
  | SshAddTunnel _ _ _ => KSshAddTunnel
  | NewPool _ => KNewPool
  | PoolQuery _ _ => KPoolQuery
  end.

(** The sequences of calls one [connect] can make. *)
Definition connectCallPatterns : list (list CallKind) :=
  [ [KNewPool]; [KSshConnect]; [KSshConnect; KSshAddTunnel];
    [KSshConnect; KSshAddTunnel; KNewPool] ].

(** The sequences of calls one [runQuery] can make. *)
Definition runQueryCallPatterns : list (list CallKind) :=
  connectCallPatterns
  ++ [ [KNewPool; KPoolQuery];
       [KSshConnect; KSshAddTunnel; KNewPool; KPoolQuery] ].

(** ** Concrete inputs *)

Definition exampleCredentials : FullPostgresCredentials.t :=
  FullPostgresCredentials.mk "db.example.com" 5432 "sales data" "ana@corp"
    "p/w?" (Some "no-verify")
    (Some (SSHTunnelConfigSecrets.mk "tunnel" "KEY" 22 "bastion")).

(** Three requests: a repeated database and schema, a repeated table, and a
    database name that contains a quote. *)
Definition exampleRequests : list Request.t :=
  [ Request.mk "db" "public" "users";
    Request.mk "db" "public" "orders";
    Request.mk "d'b" "s2" "users" ].

Definition exampleRow (c s t col ty : string) : Row :=
  list_to_map
    [ ("table_catalog", c); ("table_schema", s); ("table_name", t);
      ("column_name", col); ("data_type", ty) ].

(** The request for one table. *)
Definition usersRequest : list Request.t := [Request.mk "db" "public" "users"].

(** A client that connects directly, and one that connects through a tunnel. *)
Definition directClient : PostgresClient.t :=
  PostgresClient.mk (PoolConfig.mk "warehouse" 5432 "analytics" "reader" "pw" None)
    None.

Definition tunnelledClient : PostgresClient.t :=
  PostgresClient.mk (PoolConfig.mk "warehouse" 5432 "analytics" "reader" "pw" None)
    (Some (SSHTunnelConfigSecrets.mk "jump" "KEY" 22 "bastion")).

(** The answer of the pool to every query in the example worlds: two
    columns named [id], one column named [flag], and one row. *)
Definition exampleResult : QueryResult.t :=
  QueryResult.mk
    [ FieldDef.mk "id" builtins.INT4; FieldDef.mk "flag" builtins.BOOL;
      FieldDef.mk "id" 25 ]
    [ {[ "id" := "7"; "flag" := "t" ]} ].

(** A world in which every call succeeds. *)
Definition healthyWorld : World :=
  mkWorld (λ _ _, Answers tt) (λ _ _ _ _, Answers 40022) (λ _ _, Answers tt)
          (λ _ _ _, Answers exampleResult) (λ _ _, Answers tt).

(** A world in which the SSH server refuses the connection. *)
Definition sshRefusedWorld : World :=
  mkWorld (λ _ _, Fails "connect ECONNREFUSED") (λ _ _ _ _, Answers 40022)
          (λ _ _, Answers tt) (λ _ _ _, Answers exampleResult)
          (λ _ _, Answers tt).

(** A world in which the pool answers every query with the one row of a
    column named [__proto__] of the table db.public.users. *)
Definition protoColumnWorld : World :=
  mkWorld (λ _ _, Answers tt) (λ _ _ _ _, Answers 40022) (λ _ _, Answers tt)
          (λ _ _ _,
             Answers
               (QueryResult.mk []
                  [exampleRow "db" "public" "users" "__proto__" "integer"]))
          (λ _ _, Answers tt).

(** A world in which the pool answers every query with the one row of a
    column named [name] of a table named [constructor], and in which the
    writes into what the reduction then finds end in a [TypeError]. *)
Definition constructorTableWorld : World :=
  mkWorld (λ _ _, Answers tt) (λ _ _ _ _, Answers 40022) (λ _ _, Answers tt)
          (λ _ _ _,
             Answers
               (QueryResult.mk []
                  [exampleRow "db" "public" "constructor" "name" "text"]))
          (λ _ _, Fails "Cannot assign to read only property").

(** A world in which the pool rejects every query. *)
Definition queryRejectedWorld : World :=
  mkWorld (λ _ _, Answers tt) (λ _ _ _ _, Answers 40022) (λ _ _, Answers tt)
          (λ _ _ _, Fails "syntax error at or near SELEC") (λ _ _, Answers tt).

(** * Definitions used by the further properties *)

(** ** The enum and the builtin encoding *)

(** The members of the enum [PostgresTypes], in source order. *)
Definition PostgresTypes_members : list string :=
  [ PostgresTypes.INTEGER; PostgresTypes.INT; PostgresTypes.INT2;
    PostgresTypes.INT4; PostgresTypes.INT8; PostgresTypes.MONEY;
    PostgresTypes.SMALLSERIAL; PostgresTypes.SERIAL; PostgresTypes.SERIAL2;
    PostgresTypes.SERIAL4; PostgresTypes.SERIAL8; PostgresTypes.BIGSERIAL;
    PostgresTypes.BIGINT; PostgresTypes.SMALLINT; PostgresTypes.BOOLEAN;
    PostgresTypes.BOOL; PostgresTypes.DATE; PostgresTypes.DOUBLE_PRECISION;
    PostgresTypes.FLOAT; PostgresTypes.FLOAT4; PostgresTypes.FLOAT8;
    PostgresTypes.JSON; PostgresTypes.JSONB; PostgresTypes.NUMERIC;
    PostgresTypes.DECIMAL; PostgresTypes.REAL; PostgresTypes.CHAR;
    PostgresTypes.CHARACTER; PostgresTypes.NCHAR; PostgresTypes.BPCHAR;
    PostgresTypes.VARCHAR; PostgresTypes.CHARACTER_VARYING;
    PostgresTypes.NVARCHAR; PostgresTypes.TEXT; PostgresTypes.TIME;
    PostgresTypes.TIME_TZ; PostgresTypes.TIME_WITHOUT_TIME_ZONE;
    PostgresTypes.TIMESTAMP; PostgresTypes.TIMESTAMP_TZ;
    PostgresTypes.TIMESTAMP_WITHOUT_TIME_ZONE ].

(** Every character of the string is one that [encodeURIComponent] keeps. *)
Definition allUnreserved (s : string) : bool :=
  forallb uriUnreserved (list_ascii_of_string s).

(** The value of a hexadecimal digit, and the byte a [%XX] triple stands
    for; used to tell encoded bytes apart. *)
Definition hexValue (c : ascii) : N :=
  let n := N_of_ascii c in
  (if (65 <=? n) then n - 55 else n - 48)%N.

Definition percentDecode (triple : string) : ascii :=
  match triple with
  | String _ (String hi (String lo _)) =>
      ascii_of_N (16 * hexValue hi + hexValue lo)
  | _ => zero
  end.

(** Every character of the string is unreserved or the percent sign. *)
Definition onlyUriCharacters (s : string) : bool :=
  forallb (λ d, bool_decide (d = "%"%char) || uriUnreserved d)
          (list_ascii_of_string s).

(** ** Library failures *)

(** The message with which the world fails the call [c] made after the
    calls of [log], if it fails it. *)
Definition failureOf (w : World) (log : list Call) (c : Call) : option string :=
  match c with
  | SshConnect cfg =>
      match ssh_connect w log cfg with Fails msg => Some msg | Answers _ => None end
  | SshAddTunnel cfg remoteAddr remotePort =>
      match ssh_addTunnel w log cfg remoteAddr remotePort with
      | Fails msg => Some msg
      | Answers _ => None
      end
  | NewPool cfg =>
      match pg_Pool w log cfg with Fails msg => Some msg | Answers _ => None end
  | PoolQuery pool sql =>
      match pool_query w log pool sql with Fails msg => Some msg | Answers _ => None end
  end.

(** ** Shape of the catalog object *)

(** The row is requested and belongs to the table [c.s.t]. *)
Definition inTable (requests : list Request.t) (c s t : string) (row : Row)
    : Prop :=
  rowRequested requests row
  ∧ row !! "table_catalog" = Some c
  ∧ row !! "table_schema" = Some s
  ∧ row !! "table_name" = Some t.

#[global] Instance inTable_dec requests c s t row :
  Decision (inTable requests c s t row).
Proof. unfold inTable. apply _. Defined.


(** Two rows name the same column of the same table. *)
Definition sameColumn (row1 row2 : Row) : Prop :=
  row1 !! "table_catalog" = row2 !! "table_catalog"
  ∧ row1 !! "table_schema" = row2 !! "table_schema"
  ∧ row1 !! "table_name" = row2 !! "table_name"
  ∧ columnKey row1 = columnKey row2.

#[global] Instance sameColumn_dec row1 row2 : Decision (sameColumn row1 row2).
Proof. unfold sameColumn. apply _. Defined.

(** Requested rows that name the same column carry the same type (as the
    rows of the columns view do, which has one row per column). *)
Definition consistentRows (requests : list Request.t) (rows : list Row) : Prop :=
  Forall
    (λ row1,
       Forall
         (λ row2,
            rowRequested requests row1 → rowRequested requests row2 →
            sameColumn row1 row2 → rowType row1 = rowType row2)
         rows)
    rows.

#[global] Instance consistentRows_dec requests rows :
  Decision (consistentRows requests rows).
Proof. unfold consistentRows. apply _. Defined.

(** * Properties *)

(** Closed decidable goals are settled by evaluation. *)
Ltac by_evaluation := apply (bool_decide_unpack _); vm_compute; exact I.

(** A goal about each member of a closed list is settled member by member. *)
Ltac by_evaluation_in H :=
  repeat (apply elem_of_cons in H as [-> | H]; [by_evaluation |]);
  by apply elem_of_nil in H.

(** ** The two type-mapping functions *)

Lemma DimensionType_all_NoDup : NoDup DimensionType.all.
Proof. by_evaluation. Qed.

Lemma DimensionType_all_complete (d : DimensionType.t) : d ∈ DimensionType.all.
Proof. unfold DimensionType.all. destruct d; set_solver. Qed.

(** The value [mapFieldType] gives on each group of labels. *)
Lemma mapFieldType_table (ty : string) :
  (ty ∈ mapFieldType_NUMBER_cases → mapFieldType ty = DimensionType.NUMBER)
  ∧ (ty ∈ mapFieldType_DATE_cases → mapFieldType ty = DimensionType.DATE)
  ∧ (ty ∈ mapFieldType_TIMESTAMP_cases → mapFieldType ty = DimensionType.TIMESTAMP)
  ∧ (ty ∈ mapFieldType_BOOLEAN_cases → mapFieldType ty = DimensionType.BOOLEAN).
Proof.
  unfold mapFieldType. repeat split; intros Hin.
  - by rewrite bool_decide_eq_true_2.
  - apply list_elem_of_singleton in Hin as ->. reflexivity.
  - repeat (apply elem_of_cons in Hin as [-> | Hin]; [reflexivity |]).
    by apply elem_of_nil in Hin.
  - repeat (apply elem_of_cons in Hin as [-> | Hin]; [reflexivity |]).
    by apply elem_of_nil in Hin.
Qed.

Lemma mapFieldType_default (ty : string) :
  ty ∉ mapFieldType_cases → mapFieldType ty = DimensionType.STRING.
Proof.
  unfold mapFieldType_cases, mapFieldType. rewrite !elem_of_app. intros Hnot.
  repeat case_bool_decide; tauto.
Qed.

Lemma convert_table (dataTypeId : Z) :
  (dataTypeId ∈ convert_NUMBER_cases →
     convertDataTypeIdToDimensionType dataTypeId = DimensionType.NUMBER)
  ∧ (dataTypeId ∈ convert_DATE_cases →
     convertDataTypeIdToDimensionType dataTypeId = DimensionType.DATE)
  ∧ (dataTypeId ∈ convert_TIMESTAMP_cases →
     convertDataTypeIdToDimensionType dataTypeId = DimensionType.TIMESTAMP)
  ∧ (dataTypeId ∈ convert_BOOLEAN_cases →
     convertDataTypeIdToDimensionType dataTypeId = DimensionType.BOOLEAN).
Proof.
  unfold convertDataTypeIdToDimensionType. repeat split; intros Hin.
  - by rewrite bool_decide_eq_true_2.
  - apply list_elem_of_singleton in Hin as ->. reflexivity.
  - repeat (apply elem_of_cons in Hin as [-> | Hin]; [reflexivity |]).
    by apply elem_of_nil in Hin.
  - apply list_elem_of_singleton in Hin as ->. reflexivity.
Qed.

Lemma convert_default (dataTypeId : Z) :
  dataTypeId ∉ convert_cases →
  convertDataTypeIdToDimensionType dataTypeId = DimensionType.STRING.
Proof.
  unfold convert_cases, convertDataTypeIdToDimensionType. rewrite !elem_of_app.
  intros Hnot. repeat case_bool_decide; tauto.
Qed.

(** C1. For every input string [mapFieldType] returns exactly one of the five
    dimension types, and for every input number
    [convertDataTypeIdToDimensionType] does the same: each is a total
    function whose value is a member of the duplicate-free list of the
    five types, and an input that is not a label of the case table is
    mapped to STRING. *)
Theorem type_mapping_total_default_STRING :
  NoDup DimensionType.all
  ∧ (∀ ty : string,
       mapFieldType ty ∈ DimensionType.all
       ∧ (ty ∉ mapFieldType_cases → mapFieldType ty = DimensionType.STRING))
  ∧ (∀ dataTypeId : Z,
       convertDataTypeIdToDimensionType dataTypeId ∈ DimensionType.all
       ∧ (dataTypeId ∉ convert_cases →
          convertDataTypeIdToDimensionType dataTypeId = DimensionType.STRING)).
Proof.
  split; [apply DimensionType_all_NoDup |].
  split; intros x; (split; [apply DimensionType_all_complete |]).
  - apply mapFieldType_default.
  - apply convert_default.
Qed.

Lemma type_mapping_total_default_STRING_witness :
  mapFieldType "uuid" = DimensionType.STRING
  ∧ convertDataTypeIdToDimensionType 2950 = DimensionType.STRING.
Proof.
  destruct type_mapping_total_default_STRING as (_ & Hname & Hoid). split.
  - apply (Hname "uuid"). by_evaluation.
  - apply (Hoid 2950). by_evaluation.
Defined.

(** Labels of the enum that the case table of [mapFieldType] leaves out are
    mapped to STRING like any unknown name, the integer alias INT among them. *)
Example mapFieldType_INT : mapFieldType PostgresTypes.INT = DimensionType.STRING.
Proof. reflexivity. Qed.

Example mapFieldType_examples :
  mapFieldType "numeric" = DimensionType.NUMBER
  ∧ mapFieldType "date" = DimensionType.DATE
  ∧ mapFieldType "timestamp without time zone" = DimensionType.TIMESTAMP
  ∧ mapFieldType "bool" = DimensionType.BOOLEAN
  ∧ mapFieldType "text" = DimensionType.STRING
  ∧ mapFieldType "Numeric" = DimensionType.STRING.
Proof. repeat split. Qed.

(** ** SSL modes *)

Lemma getSSLConfigFromMode_unknown (mode : string) :
  mode ∉ sslModes →
  getSSLConfigFromMode mode =
  Thrown (mkError Error
            ("SSL mode " +:+ dquote +:+ mode +:+ dquote +:+ " not understood.")).
Proof.
  unfold sslModes, getSSLConfigFromMode, getSSLConfigFromMode_truthy_cases.
  rewrite !not_elem_of_cons. intros (? & ? & ? & ? & ? & ? & ? & _).
  rewrite !bool_decide_eq_false_2; [done | | done | done].
  rewrite !not_elem_of_cons. repeat split; try done. apply not_elem_of_nil.
Qed.

Lemma getSSLConfigFromMode_known (mode : string) :
  mode ∈ sslModes → ∃ v, getSSLConfigFromMode mode = Returned v.
Proof.
  unfold sslModes. intros Hin.
  repeat (apply elem_of_cons in Hin as [-> | Hin]; [by eexists |]).
  by apply elem_of_nil in Hin.
Qed.

(** C5. [getSSLConfigFromMode] returns false for 'disable', an object with
    rejectUnauthorized false for 'no-verify' and true for 'allow', 'prefer',
    'require', 'verify-ca' and 'verify-full'; it returns a value exactly on
    these seven strings and throws an [Error] for every other string. *)
Theorem getSSLConfigFromMode_seven_modes :
  getSSLConfigFromMode "disable" = Returned (SslBool false)
  ∧ getSSLConfigFromMode "no-verify" = Returned (SslOptions false)
  ∧ getSSLConfigFromMode "allow" = Returned (SslBool true)
  ∧ getSSLConfigFromMode "prefer" = Returned (SslBool true)
  ∧ getSSLConfigFromMode "require" = Returned (SslBool true)
  ∧ getSSLConfigFromMode "verify-ca" = Returned (SslBool true)
  ∧ getSSLConfigFromMode "verify-full" = Returned (SslBool true)
  ∧ (∀ mode : string,
       (∃ v, getSSLConfigFromMode mode = Returned v) ↔ mode ∈ sslModes)
  ∧ (∀ mode : string,
       mode ∉ sslModes →
       getSSLConfigFromMode mode
       = Thrown (mkError Error
                   ("SSL mode " +:+ dquote +:+ mode +:+ dquote
                    +:+ " not understood."))).
Proof.
  repeat (split; [reflexivity |]). split.
  - intros mode. split; [| apply getSSLConfigFromMode_known].
    intros [v Hv]. destruct (decide (mode ∈ sslModes)) as [| Hnot]; [done |].
    rewrite (getSSLConfigFromMode_unknown _ Hnot) in Hv. discriminate.
  - intros mode Hnot. by apply getSSLConfigFromMode_unknown.
Qed.

Lemma getSSLConfigFromMode_seven_modes_witness :
  getSSLConfigFromMode "Require"
  = Thrown (mkError Error
              ("SSL mode " +:+ dquote +:+ "Require" +:+ dquote
               +:+ " not understood.")).
Proof.
  destruct getSSLConfigFromMode_seven_modes as (_ & _ & _ & _ & _ & _ & _ & _ & H).
  apply (H "Require"). by_evaluation.
Defined.

(** ** The constructor of PostgresWarehouseClient *)

(** [encodeURIComponent] returns the encoding of a well-formed string and
    throws on any other. *)
Lemma encodeURIComponent_Returned (s encoded : string) :
  encodeURIComponent s = Returned encoded ↔ wellFormed s = true ∧ encoded = Encode s.
Proof.
  unfold encodeURIComponent. destruct (wellFormed s); split.
  - by intros [= <-].
  - by intros [_ ->].
  - done.
  - by intros [? _].
Qed.

Lemma encodeURIComponent_Thrown (s : string) (e : JsError) :
  encodeURIComponent s = Thrown e → wellFormed s = false ∧ errorClass e = URIError.
Proof. unfold encodeURIComponent. destruct (wellFormed s); [done |]. by intros [= <-]. Qed.

(** The ssl option the constructor derives, by the cases of sslmode. *)
Lemma constructor_ssl_cases (credentials : FullPostgresCredentials.t) :
  let ssl :=
    if PostgresWarehouseClient.truthy (FullPostgresCredentials.sslmode credentials)
    then PostgresWarehouseClient.andThen
           (getSSLConfigFromMode
              (default EmptyString (FullPostgresCredentials.sslmode credentials)))
           (λ v, Returned (Some v))
    else Returned None in
  (FullPostgresCredentials.sslmode credentials = None ∧ ssl = Returned None)
  ∨ (FullPostgresCredentials.sslmode credentials = Some EmptyString
     ∧ ssl = Returned None)
  ∨ (∃ mode v, FullPostgresCredentials.sslmode credentials = Some mode
               ∧ mode ≠ EmptyString ∧ mode ∈ sslModes
               ∧ getSSLConfigFromMode mode = Returned v ∧ ssl = Returned (Some v))
  ∨ (∃ mode e, FullPostgresCredentials.sslmode credentials = Some mode
               ∧ mode ≠ EmptyString ∧ (mode ∉ sslModes)
               ∧ errorClass e = Error ∧ ssl = Thrown e).
Proof.
  destruct (FullPostgresCredentials.sslmode credentials) as [[| a m] |]; simpl.
  - right; left. done.
  - destruct (decide (String a m ∈ sslModes)) as [Hin | Hnot].
    + right; right; left.
      destruct (getSSLConfigFromMode_known _ Hin) as [v Hv].
      exists (String a m), v. by rewrite Hv.
    + right; right; right.
      rewrite (getSSLConfigFromMode_unknown _ Hnot).
      eexists (String a m), (mkError Error _). repeat split; done.
  - left. done.
Qed.

(** What the constructor returns, when it returns. *)
Lemma constructor_Returned (credentials : FullPostgresCredentials.t)
    (client : PostgresClient.t) :
  PostgresWarehouseClient.constructor credentials = Returned client →
  (wellFormed (FullPostgresCredentials.host credentials) = true
   ∧ wellFormed (FullPostgresCredentials.dbname credentials) = true
   ∧ wellFormed (FullPostgresCredentials.user credentials) = true
   ∧ wellFormed (FullPostgresCredentials.password credentials) = true)
  ∧ PoolConfig.host (PostgresClient.config client)
    = Encode (FullPostgresCredentials.host credentials)
  ∧ PoolConfig.database (PostgresClient.config client)
    = Encode (FullPostgresCredentials.dbname credentials)
  ∧ PoolConfig.user (PostgresClient.config client)
    = Encode (FullPostgresCredentials.user credentials)
  ∧ PoolConfig.password (PostgresClient.config client)
    = Encode (FullPostgresCredentials.password credentials)
  ∧ PoolConfig.port (PostgresClient.config client)
    = FullPostgresCredentials.port credentials
  ∧ PostgresClient.sshTunnel client
    = FullPostgresCredentials.sshTunnel credentials
  ∧ (if PostgresWarehouseClient.truthy (FullPostgresCredentials.sslmode credentials)
     then PostgresWarehouseClient.andThen
            (getSSLConfigFromMode
               (default EmptyString (FullPostgresCredentials.sslmode credentials)))
            (λ v, Returned (Some v))
     else Returned None)
    = Returned (PoolConfig.ssl (PostgresClient.config client)).
Proof.
  unfold PostgresWarehouseClient.constructor, encodeURIComponent.
  destruct (if PostgresWarehouseClient.truthy _ then _ else _) as [ssl |]; [| done].
  simpl.
  destruct (wellFormed (FullPostgresCredentials.host credentials)); [| done]. simpl.
  destruct (wellFormed (FullPostgresCredentials.dbname credentials)); [| done]. simpl.
  destruct (wellFormed (FullPostgresCredentials.user credentials)); [| done]. simpl.
  destruct (wellFormed (FullPostgresCredentials.password credentials)); [| done].
  simpl. by intros [= <-].
Qed.

Lemma constructor_returns_iff (credentials : FullPostgresCredentials.t) :
  (∃ client, PostgresWarehouseClient.constructor credentials = Returned client)
  ↔ (FullPostgresCredentials.sslmode credentials = None
     ∨ FullPostgresCredentials.sslmode credentials = Some EmptyString
     ∨ ∃ mode, FullPostgresCredentials.sslmode credentials = Some mode
               ∧ mode ∈ sslModes)
    ∧ wellFormed (FullPostgresCredentials.host credentials) = true
    ∧ wellFormed (FullPostgresCredentials.dbname credentials) = true
    ∧ wellFormed (FullPostgresCredentials.user credentials) = true
    ∧ wellFormed (FullPostgresCredentials.password credentials) = true.
Proof.
  split.
  - intros [client Hc].
    destruct (constructor_Returned _ _ Hc) as ((? & ? & ? & ?) & _ & _ & _ & _ & _ & _ & Hssl).
    split; [| done].
    destruct (constructor_ssl_cases credentials)
      as [[? _] | [[? _] | [(mode & v & ? & _ & ? & _) | (mode & e & _ & _ & _ & _ & He)]]];
      [by left | by right; left | by right; right; exists mode |].
    simpl in He. rewrite He in Hssl. discriminate.
  - intros (Hmode & Hh & Hd & Hu & Hp).
    unfold PostgresWarehouseClient.constructor, encodeURIComponent.
    rewrite Hh, Hd, Hu, Hp.
    destruct (constructor_ssl_cases credentials)
      as [[_ ->] | [[_ ->] | [(mode & v & _ & _ & _ & _ & ->)
                             | (mode & e & Hm & Hne & Hnot & _ & _)]]];
      [by eexists.. |].
    destruct Hmode as [? | [? | (mode' & ? & ?)]]; congruence.
Qed.

(** C8. Whenever the constructor of [PostgresWarehouseClient] builds a
    client, the pool configuration holds host, database, user and password
    percent-encoded by [encodeURIComponent], the port as given, the ssl
    option that [getSSLConfigFromMode] gives for a non-empty sslmode, and
    the SSH tunnel settings as given; when sslmode is absent (or empty) the
    ssl option is undefined. It builds a client exactly when sslmode is
    absent, empty or one of the seven modes and the four credentials are
    well-formed strings; otherwise it throws the [Error] of
    [getSSLConfigFromMode] or the [URIError] of [encodeURIComponent]. *)
Theorem constructor_encodes_credentials (credentials : FullPostgresCredentials.t) :
  (∀ client,
     PostgresWarehouseClient.constructor credentials = Returned client →
     encodeURIComponent (FullPostgresCredentials.host credentials)
       = Returned (PoolConfig.host (PostgresClient.config client))
     ∧ encodeURIComponent (FullPostgresCredentials.dbname credentials)
       = Returned (PoolConfig.database (PostgresClient.config client))
     ∧ encodeURIComponent (FullPostgresCredentials.user credentials)
       = Returned (PoolConfig.user (PostgresClient.config client))
     ∧ encodeURIComponent (FullPostgresCredentials.password credentials)
       = Returned (PoolConfig.password (PostgresClient.config client))
     ∧ PoolConfig.port (PostgresClient.config client)
       = FullPostgresCredentials.port credentials
     ∧ PostgresClient.sshTunnel client
       = FullPostgresCredentials.sshTunnel credentials
     ∧ (∀ mode,
          FullPostgresCredentials.sslmode credentials = Some mode →
          mode ≠ EmptyString →
          ∃ v, getSSLConfigFromMode mode = Returned v
               ∧ PoolConfig.ssl (PostgresClient.config client) = Some v)
     ∧ (FullPostgresCredentials.sslmode credentials = None
        ∨ FullPostgresCredentials.sslmode credentials = Some EmptyString →
        PoolConfig.ssl (PostgresClient.config client) = None))
  ∧ ((∃ client, PostgresWarehouseClient.constructor credentials = Returned client)
     ↔ (FullPostgresCredentials.sslmode credentials = None
        ∨ FullPostgresCredentials.sslmode credentials = Some EmptyString
        ∨ ∃ mode, FullPostgresCredentials.sslmode credentials = Some mode
                  ∧ mode ∈ sslModes)
       ∧ wellFormed (FullPostgresCredentials.host credentials) = true
       ∧ wellFormed (FullPostgresCredentials.dbname credentials) = true
       ∧ wellFormed (FullPostgresCredentials.user credentials) = true
       ∧ wellFormed (FullPostgresCredentials.password credentials) = true)
  ∧ (∀ e,
       PostgresWarehouseClient.constructor credentials = Thrown e →
       (errorClass e = Error
        ∧ ∃ mode, FullPostgresCredentials.sslmode credentials = Some mode
                  ∧ mode ≠ EmptyString ∧ (mode ∉ sslModes))
       ∨ (errorClass e = URIError
          ∧ (wellFormed (FullPostgresCredentials.host credentials) = false
             ∨ wellFormed (FullPostgresCredentials.dbname credentials) = false
             ∨ wellFormed (FullPostgresCredentials.user credentials) = false
             ∨ wellFormed (FullPostgresCredentials.password credentials) = false))).
Proof.
  split; [| split; [apply constructor_returns_iff |]].
  - intros client Hc.
    destruct (constructor_Returned _ _ Hc)
      as ((Hh & Hd & Hu & Hp) & -> & -> & -> & -> & Hport & Htunnel & Hssl).
    unfold encodeURIComponent. rewrite Hh, Hd, Hu, Hp.
    repeat (split; [done |]).
    destruct (constructor_ssl_cases credentials)
      as [[Hm He] | [[Hm He] | [(mode & v & Hm & Hne & _ & Hv & He)
                               | (mode & e & _ & _ & _ & _ & He)]]];
      simpl in He; rewrite He in Hssl; [| | | discriminate];
      injection Hssl as <-.
    + split; [| done]. intros mode. by rewrite Hm.
    + split; [| done]. intros mode. rewrite Hm. by intros [= <-].
    + split.
      * intros mode'. rewrite Hm. intros [= <-] _. by exists v.
      * rewrite Hm. by intros [| [= ->]].
  - intros e. unfold PostgresWarehouseClient.constructor.
    destruct (constructor_ssl_cases credentials)
      as [[_ He] | [[_ He] | [(mode & v & _ & _ & _ & _ & He)
                             | (mode & e' & Hm & Hne & Hnot & Hclass & He)]]];
      simpl in He; rewrite He; simpl.
    4: { intros [= <-]. left. split; [done |]. by exists mode. }
    all: unfold encodeURIComponent;
      destruct (wellFormed (FullPostgresCredentials.host credentials));
        [| intros [= <-]; right; split; [done | by left]]; simpl;
      destruct (wellFormed (FullPostgresCredentials.dbname credentials));
        [| intros [= <-]; right; split; [done | by right; left]]; simpl;
      destruct (wellFormed (FullPostgresCredentials.user credentials));
        [| intros [= <-]; right; split; [done | by right; right; left]]; simpl;
      destruct (wellFormed (FullPostgresCredentials.password credentials));
        [done | intros [= <-]; right; split; [done | by right; right; right]].
Qed.

Lemma constructor_encodes_credentials_witness :
  ∃ client,
    PostgresWarehouseClient.constructor exampleCredentials = Returned client
    ∧ PoolConfig.database (PostgresClient.config client) = "sales%20data"
    ∧ PoolConfig.user (PostgresClient.config client) = "ana%40corp"
    ∧ PoolConfig.password (PostgresClient.config client) = "p%2Fw%3F"
    ∧ PoolConfig.port (PostgresClient.config client) = 5432
    ∧ PoolConfig.ssl (PostgresClient.config client) = Some (SslOptions false).
Proof.
  eexists. split; [reflexivity |].
  destruct (constructor_encodes_credentials exampleCredentials) as (H & _).
  destruct (H _ eq_refl) as (_ & Hd & Hu & Hp & Hport & _ & Hssl & _).
  destruct (Hssl "no-verify" eq_refl) as (v & Hv & Hs); [done |].
  injection Hv as <-. rewrite Hport, Hs. repeat split.
Defined.

(** A credential with a lone surrogate makes the constructor throw: the
    bytes [ED A0 80] are the generalized encoding of the surrogate D800. *)
Example constructor_throws_on_lone_surrogate :
  PostgresWarehouseClient.constructor
    (FullPostgresCredentials.mk "h" 5432 "d" "u"
       (String (ascii_of_nat 237) (String (ascii_of_nat 160)
          (String (ascii_of_nat 128) EmptyString)))
       None None)
  = Thrown (mkError URIError "URI malformed").
Proof. reflexivity. Qed.

(** A mode that is not understood makes the constructor throw. *)
Example constructor_throws_on_unknown_mode :
  PostgresWarehouseClient.constructor
    (FullPostgresCredentials.mk "h" 5432 "d" "u" "p" (Some "strict") None)
  = Thrown (mkError Error
              ("SSL mode " +:+ dquote +:+ "strict" +:+ dquote +:+ " not understood.")).
Proof. reflexivity. Qed.

(** ** The three sets of getCatalog and the query text *)

Lemma elem_of_dedupFirstOccurrence (l : list string) (x : string) :
  x ∈ dedupFirstOccurrence l ↔ x ∈ l.
Proof.
  induction l as [| y l IH]; simpl; [done |].
  rewrite !elem_of_cons, list_elem_of_filter, IH.
  destruct (decide (x = y)); naive_solver.
Qed.

Lemma NoDup_dedupFirstOccurrence (l : list string) :
  NoDup (dedupFirstOccurrence l).
Proof.
  induction l as [| y l IH]; simpl; [constructor |].
  constructor; [| by apply NoDup_filter].
  rewrite list_elem_of_filter. naive_solver.
Qed.

Lemma dedupFirstOccurrence_fmap (f : string → string) `{!Inj (=) (=) f}
    (l : list string) :
  dedupFirstOccurrence (f <$> l) = f <$> dedupFirstOccurrence l.
Proof.
  induction l as [| x l IH]; [done |].
  rewrite fmap_cons. cbn [dedupFirstOccurrence]. rewrite IH, fmap_cons. f_equal.
  generalize (dedupFirstOccurrence l) as k. clear IH.
  induction k as [| y k IHk]; [done |]. rewrite fmap_cons.
  destruct (decide (y = x)) as [-> | Hne].
  - rewrite !filter_cons_False by naive_solver. done.
  - rewrite !filter_cons_True; [by rewrite fmap_cons, IHk | done |].
    intros Heq. by apply (inj f) in Heq.
Qed.

(** Adding the values of a list one by one to a set kept in insertion
    order appends the new ones at their first occurrence. *)
Lemma foldl_Set_add (acc l : list string) :
  foldl Set_add acc l = acc ++ filter (λ y, y ∉ acc) (dedupFirstOccurrence l).
Proof.
  revert acc. induction l as [| x l IH]; intros acc; simpl.
  - by rewrite filter_nil, app_nil_r.
  - rewrite IH. unfold Set_add. case_bool_decide as Hx.
    + rewrite filter_cons_False by naive_solver. f_equal.
      rewrite list_filter_filter. apply list_filter_iff. intros y. naive_solver.
    + rewrite filter_cons_True by done. rewrite <- app_assoc. simpl. do 2 f_equal.
      rewrite list_filter_filter. apply list_filter_iff. intros y.
      rewrite elem_of_app, list_elem_of_singleton. naive_solver.
Qed.

Lemma foldl_Set_add_nil (l : list string) :
  foldl Set_add [] l = dedupFirstOccurrence l.
Proof.
  rewrite foldl_Set_add. simpl.
  induction (dedupFirstOccurrence l) as [| y k IH]; [done |].
  rewrite filter_cons_True by apply not_elem_of_nil. by rewrite IH.
Qed.

(** The first reduction of [getCatalog] is three independent folds. *)
Lemma requestSets_foldl (requests : list Request.t) (a b c : list string) :
  foldl
    (λ acc r,
       RequestSets.mk
         (Set_add (RequestSets.databases acc) (quoted (Request.database r)))
         (Set_add (RequestSets.schemas acc) (quoted (Request.schema r)))
         (Set_add (RequestSets.tables acc) (quoted (Request.table r))))
    (RequestSets.mk a b c) requests
  = RequestSets.mk
      (foldl Set_add a ((λ r, quoted (Request.database r)) <$> requests))
      (foldl Set_add b ((λ r, quoted (Request.schema r)) <$> requests))
      (foldl Set_add c ((λ r, quoted (Request.table r)) <$> requests)).
Proof.
  revert a b c. induction requests as [| r requests IH]; intros a b c; simpl.
  - done.
  - by rewrite IH.
Qed.

Lemma length_append (s1 s2 : string) :
  String.length (s1 +:+ s2) = (String.length s1 + String.length s2)%nat.
Proof. induction s1 as [| a s1 IH]; simpl; [done | by rewrite IH]. Qed.

#[global] Instance quoted_inj : Inj (=) (=) quoted.
Proof.
  intros v v'. unfold quoted. simpl. intros [= H]. revert v' H.
  induction v as [| a v IH]; intros [| a' v'] H; simpl in H.
  - done.
  - injection H as _ H. by destruct v'.
  - injection H as _ H. by destruct v.
  - injection H as -> H. f_equal. by apply IH.
Qed.

Lemma requestSets_spec (requests : list Request.t) :
  requestSets requests
  = RequestSets.mk
      (quoted <$> dedupFirstOccurrence (Request.database <$> requests))
      (quoted <$> dedupFirstOccurrence (Request.schema <$> requests))
      (quoted <$> dedupFirstOccurrence (Request.table <$> requests)).
Proof.
  unfold requestSets. rewrite requestSets_foldl, !foldl_Set_add_nil.
  rewrite <- !dedupFirstOccurrence_fmap by apply _.
  by rewrite <- !list_fmap_compose.
Qed.

(** The three sets are empty together, and only for the empty list. *)
Lemma requestSets_empty_iff (requests : list Request.t) :
  (length (RequestSets.databases (requestSets requests)) = 0%nat
   ∨ length (RequestSets.schemas (requestSets requests)) = 0%nat
   ∨ length (RequestSets.tables (requestSets requests)) = 0%nat)
  ↔ requests = [].
Proof.
  rewrite requestSets_spec. simpl. split.
  - destruct requests as [| r requests]; [done |]. simpl. intros [H | [H | H]]; done.
  - by intros ->; left.
Qed.

(** C4. Whenever one of the three sets of requested databases, schemas and
    tables is empty, [getCatalog] returns the empty object and makes no
    call to the libraries (the log is unchanged); in particular for the
    empty list of requests. *)
Theorem getCatalog_empty_sets (w : World) (this : PostgresClient.t)
    (requests : list Request.t) (log : list Call) :
  (length (RequestSets.databases (requestSets requests)) = 0%nat
   ∨ length (RequestSets.schemas (requestSets requests)) = 0%nat
   ∨ length (RequestSets.tables (requestSets requests)) = 0%nat →
   PostgresClient.getCatalog w this requests log = (Returned ∅, log))
  ∧ PostgresClient.getCatalog w this [] log = (Returned ∅, log).
Proof.
  split; [| reflexivity].
  intros H. unfold PostgresClient.getCatalog.
  destruct H as [-> | [-> | ->]]; simpl; rewrite ?orb_true_r; reflexivity.
Qed.

Lemma getCatalog_empty_sets_witness :
  PostgresClient.getCatalog queryRejectedWorld directClient [] [] = (Returned ∅, []).
Proof.
  apply (proj1 (getCatalog_empty_sets queryRejectedWorld directClient [] [])).
  left. reflexivity.
Defined.

(** ** The catalog reduction *)

Lemma requestMatches_spec (row : Row) (r : Request.t) :
  requestMatches (row !! "table_catalog") (row !! "table_schema")
                 (row !! "table_name") r = true
  ↔ tripleEquals row r.
Proof.
  unfold requestMatches, tripleEquals. rewrite !andb_true_iff.
  rewrite !bool_decide_eq_true. naive_solver.
Qed.

Lemma find_requestMatches_None (requests : list Request.t) (row : Row) :
  find (requestMatches (row !! "table_catalog") (row !! "table_schema")
                       (row !! "table_name")) requests = None
  ↔ ¬ rowRequested requests row.
Proof.
  unfold rowRequested. rewrite Exists_exists. split.
  - intros Hnone (r & Hin & Hr). apply list_elem_of_In in Hin.
    pose proof (find_none _ _ Hnone r Hin) as Hf.
    apply requestMatches_spec in Hr. congruence.
  - intros Hnot.
    destruct (find _ requests) as [r |] eqn:Hfind; [| done].
    apply find_some in Hfind as [Hin Hr]. exfalso. apply Hnot.
    exists r. split; [by apply list_elem_of_In | by apply requestMatches_spec].
Qed.

Lemma find_requestMatches_is_Some (requests : list Request.t) (row : Row) :
  is_Some (find (requestMatches (row !! "table_catalog") (row !! "table_schema")
                                (row !! "table_name")) requests)
  ↔ rowRequested requests row.
Proof.
  destruct (find _ requests) as [r |] eqn:Hfind.
  - split; [| by eexists]. intros _.
    destruct (decide (rowRequested requests row)) as [| Hnot]; [done |].
    apply find_requestMatches_None in Hnot. congruence.
  - apply find_requestMatches_None in Hfind. split; [by intros [? ?] | done].
Qed.

Lemma catalogStep_unrequested (requests : list Request.t) (acc : CatalogObject)
    (row : Row) :
  ¬ rowRequested requests row → catalogStep requests acc row = acc.
Proof.
  intros Hnot. apply find_requestMatches_None in Hnot.
  unfold catalogStep. by rewrite Hnot.
Qed.

Lemma rowRequested_triple (requests : list Request.t) (row : Row) :
  rowRequested requests row →
  ∃ c s t, row !! "table_catalog" = Some c ∧ row !! "table_schema" = Some s
           ∧ row !! "table_name" = Some t
           ∧ Request.mk c s t ∈ requests.
Proof.
  unfold rowRequested. rewrite Exists_exists.
  intros ([c s t] & Hin & Hc & Hs & Ht). simpl in *. by exists c, s, t.
Qed.

(** One step on a plain accumulator: exotic for a requested row that names
    an inherited property, else the nested update of the own properties. *)
Lemma catalogStep_Plain (requests : list Request.t) (own : Catalog) (row : Row) :
  catalogStep requests (Plain own) row
  = if decide (exoticRow requests row) then Exotic
    else Plain (ownStep requests own row).
Proof.
  unfold catalogStep, ownStep, exoticRow.
  destruct (find _ requests) as [r |] eqn:Hfind.
  - assert (rowRequested requests row) as Hreq.
    { apply find_requestMatches_is_Some. rewrite Hfind. by eexists. }
    fold (namesInherited row).
    destruct (decide (rowRequested requests row ∧ namesInherited row = true))
      as [[_ Hnames] | Hnames].
    + by rewrite Hnames.
    + assert (namesInherited row = false) as ->
        by (destruct (namesInherited row); naive_solver).
      rewrite decide_True by done.
      unfold writeRow, columnKey, rowType. simpl.
      rewrite !alter_insert_eq. reflexivity.
  - apply find_requestMatches_None in Hfind.
    rewrite decide_False by naive_solver. by rewrite decide_False.
Qed.

Lemma catalogStep_Exotic (requests : list Request.t) (row : Row) :
  catalogStep requests Exotic row = Exotic.
Proof. unfold catalogStep. by destruct (find _ requests). Qed.

Lemma foldl_catalogStep_Exotic (requests : list Request.t) (rows : list Row) :
  foldl (catalogStep requests) Exotic rows = Exotic.
Proof.
  induction rows as [| row rows IH]; [done |]. simpl.
  by rewrite catalogStep_Exotic.
Qed.

Lemma foldl_catalogStep_Plain (requests : list Request.t) (rows : list Row)
    (own : Catalog) :
  foldl (catalogStep requests) (Plain own) rows
  = if decide (plainRows requests rows)
    then Plain (foldl (ownStep requests) own rows) else Exotic.
Proof.
  unfold plainRows. revert own.
  induction rows as [| row rows IH]; intros own.
  - by rewrite decide_True by constructor.
  - simpl. rewrite catalogStep_Plain.
    destruct (decide (exoticRow requests row)) as [Hex | Hnot].
    + rewrite foldl_catalogStep_Exotic. rewrite decide_False; [done |].
      by intros [? _]%Forall_cons.
    + rewrite IH. destruct (decide (Forall _ rows)) as [Hrows | Hrows].
      * by rewrite decide_True by (by constructor).
      * rewrite decide_False; [done |]. by intros [_ ?]%Forall_cons.
Qed.

(** The result of the reduction: plain exactly when no requested row names
    an inherited property as its catalog, schema or table. *)
Lemma catalogOfRows_cases (requests : list Request.t) (rows : list Row) :
  catalogOfRows requests rows
  = if decide (plainRows requests rows) then Plain (ownCatalog requests rows)
    else Exotic.
Proof. apply foldl_catalogStep_Plain. Qed.

Lemma catalogOfRows_Plain (requests : list Request.t) (rows : list Row)
    (catalog : Catalog) :
  catalogOfRows requests rows = Plain catalog
  ↔ plainRows requests rows ∧ catalog = ownCatalog requests rows.
Proof.
  rewrite catalogOfRows_cases. case_decide; split.
  - by intros [= <-].
  - by intros [_ ->].
  - done.
  - by intros [? _].
Qed.



Lemma foldl_catalogStep_filter (requests : list Request.t) (rows : list Row)
    (acc : CatalogObject) :
  foldl (catalogStep requests) acc rows
  = foldl (catalogStep requests) acc (filter (rowRequested requests) rows).
Proof.
  revert acc. induction rows as [| row rows IH]; intros acc; [done |].
  rewrite filter_cons. case_decide; simpl.
  - apply IH.
  - rewrite catalogStep_unrequested by done. apply IH.
Qed.

(** ** connect, runQuery, test and getCatalog call by call *)

Section Calls.
Variable w : World.
Variable this : PostgresClient.t.

Lemma connect_without_tunnel (log : list Call) :
  PostgresClient.sshTunnel this = None →
  PostgresClient.connect w this log
  = createPool w (PostgresClient.config this) log.
Proof.
  intros Hnone. unfold PostgresClient.connect, createPool, try_catch, perform.
  rewrite Hnone. unfold mbind, M_bind, mret, M_ret.
  by destruct (pg_Pool w log _).
Qed.

Lemma connect_with_tunnel (tunnel : SSHTunnelConfigSecrets.t) (log : list Call) :
  PostgresClient.sshTunnel this = Some tunnel →
  PostgresClient.connect w this log
  = let sshConfig := sshConfigOf tunnel in
    let host := PoolConfig.host (PostgresClient.config this) in
    let port := PoolConfig.port (PostgresClient.config this) in
    let log1 := log ++ [SshConnect sshConfig] in
    let log2 := log1 ++ [SshAddTunnel sshConfig host port] in
    match ssh_connect w log sshConfig with
    | Fails msg => (Thrown (mkError WarehouseConnectionError msg), log1)
    | Answers _ =>
        match ssh_addTunnel w log1 sshConfig host port with
        | Fails msg => (Thrown (mkError WarehouseConnectionError msg), log2)
        | Answers localPort => createPool w (tunnelledConfig this localPort) log2
        end
    end.
Proof.
  intros Hsome. unfold PostgresClient.connect, createPool, try_catch, perform.
  rewrite Hsome. unfold mbind, M_bind, mret, M_ret, sshConfigOf, tunnelledConfig.
  simpl. destruct (ssh_connect w log _); [done |].
  destruct (ssh_addTunnel w _ _ _ _); [done |].
  by destruct (pg_Pool w _ _).
Qed.

Lemma runQuery_unfold (sql : string) (log : list Call) :
  PostgresClient.runQuery w this sql log
  = match PostgresClient.connect w this log with
    | (Thrown e, log0) => (Thrown (mkError WarehouseQueryError (message e)), log0)
    | (Returned pool, log0) =>
        match pool_query w log0 pool sql with
        | Fails msg =>
            (Thrown (mkError WarehouseQueryError msg), log0 ++ [PoolQuery pool sql])
        | Answers results =>
            (Returned
               (RunQueryResult.mk
                  (PostgresClient.fieldsRecord (QueryResult.fields results))
                  (QueryResult.rows results)),
             log0 ++ [PoolQuery pool sql])
        end
    end.
Proof.
  unfold PostgresClient.runQuery, try_catch, perform, mbind, M_bind, mret, M_ret.
  destruct (PostgresClient.connect w this log) as [[pool | e] log0]; [| done].
  by destruct (pool_query w log0 pool sql).
Qed.

(** [runQuery] returns exactly when connecting succeeds and the pool
    answers the query; it then returns the reduced fields and the rows. *)
Lemma runQuery_returns_iff (sql : string) (log log' : list Call)
    (out : RunQueryResult.t) :
  PostgresClient.runQuery w this sql log = (Returned out, log')
  ↔ ∃ pool log0 results,
      PostgresClient.connect w this log = (Returned pool, log0)
      ∧ pool_query w log0 pool sql = Answers results
      ∧ log' = log0 ++ [PoolQuery pool sql]
      ∧ out = RunQueryResult.mk
                (PostgresClient.fieldsRecord (QueryResult.fields results))
                (QueryResult.rows results).
Proof.
  rewrite runQuery_unfold. split.
  - destruct (PostgresClient.connect w this log) as [[pool | e] log0]; [| done].
    destruct (pool_query w log0 pool sql) as [msg | results] eqn:Hq; [done |].
    intros [= <- <-]. by exists pool, log0, results.
  - intros (pool & log0 & results & -> & -> & -> & ->). done.
Qed.

Lemma test_unfold (log : list Call) :
  PostgresClient.test w this log
  = match PostgresClient.runQuery w this "SELECT 1" log with
    | (Returned _, log') => (Returned tt, log')
    | (Thrown e, log') => (Thrown e, log')
    end.
Proof. reflexivity. Qed.

Lemma getCatalog_unfold (requests : list Request.t) (log : list Call) :
  requests ≠ [] →
  PostgresClient.getCatalog w this requests log
  = match PostgresClient.runQuery w this (catalogQuery (requestSets requests)) log with
    | (Returned result, log') =>
        PostgresClient.reduceRows w requests (RunQueryResult.rows result) log'
    | (Thrown e, log') => (Thrown e, log')
    end.
Proof.
  intros Hne. unfold PostgresClient.getCatalog.
  rewrite requestSets_spec. simpl.
  destruct requests as [| r requests]; [done |]. reflexivity.
Qed.

(** The outcome of the reduction after the query: the result when it is
    plain, and for an exotic one what the world says. *)
Lemma reduceRows_Returned (requests : list Request.t) (rows : list Row)
    (log log' : list Call) (catalog : CatalogObject) :
  PostgresClient.reduceRows w requests rows log = (Returned catalog, log') →
  catalog = catalogOfRows requests rows ∧ log' = log.
Proof.
  unfold PostgresClient.reduceRows.
  destruct (catalogOfRows requests rows) as [own |]; [by intros [= <- <-] |].
  destruct (exotic_reduce w log _); [done | by intros [= <- <-]].
Qed.



End Calls.

(** ** Rows outside the requests *)

(** C2. A row whose (table_catalog, table_schema, table_name) triple equals
    the (database, schema, table) triple of no entry of the requests
    contributes nothing to the object [getCatalog] returns: the reduction
    step leaves the accumulator as it is, the reduction of the rows equals
    the reduction of the requested rows alone, and the object returned by
    [getCatalog] is the reduction of the requested rows of the query
    result. *)
Theorem getCatalog_excludes_unrequested_rows (requests : list Request.t) :
  (∀ (acc : CatalogObject) (row : Row),
     (∀ r, r ∈ requests → ¬ tripleEquals row r) →
     catalogStep requests acc row = acc)
  ∧ (∀ rows : list Row,
       catalogOfRows requests rows
       = catalogOfRows requests (filter (rowRequested requests) rows))
  ∧ (∀ (w : World) (this : PostgresClient.t) (log log' : list Call)
       (catalog : CatalogObject),
       PostgresClient.getCatalog w this requests log = (Returned catalog, log') →
       (requests = [] ∧ catalog = ∅ ∧ log' = log)
       ∨ ∃ result,
           PostgresClient.runQuery w this (catalogQuery (requestSets requests)) log
           = (Returned result, log')
           ∧ catalog
             = catalogOfRows requests
                 (filter (rowRequested requests) (RunQueryResult.rows result))).
Proof.
  split; [| split].
  - intros acc row Hnone. apply catalogStep_unrequested.
    unfold rowRequested. rewrite Exists_exists. naive_solver.
  - intros rows. apply foldl_catalogStep_filter.
  - intros w this log log' catalog.
    destruct (decide (requests = [])) as [-> | Hne].
    + intros [= <- <-]. by left.
    + rewrite getCatalog_unfold by done.
      destruct (PostgresClient.runQuery w this _ log) as [[result | e] log1];
        [| done].
      intros [-> ->]%reduceRows_Returned. right. exists result. split; [done |].
      apply foldl_catalogStep_filter.
Qed.

Lemma getCatalog_excludes_unrequested_rows_witness :
  catalogStep exampleRequests ∅ (exampleRow "db" "s2" "users" "id" "integer") = ∅.
Proof.
  apply (getCatalog_excludes_unrequested_rows exampleRequests).
  intros r Hr. by_evaluation_in Hr.
Defined.

(** ** Requested rows *)


(** C3. A requested row whose column is named [__proto__] is not placed in
    the result: for the request (db, public, users) and the single row
    (db, public, users, __proto__, integer), which matches it, the
    reduction and [getCatalog] give the object with the empty table object
    db.public.users, in which no type is stored for the column, where
    [mapFieldType] of the row's type is NUMBER. For a
    requested row whose catalog is named [__proto__] the reduction leaves
    the plain objects altogether. *)
Theorem proto_column_is_not_stored :
  hasColumns (exampleRow "db" "public" "users" "__proto__" "integer")
             "db" "public" "users" "__proto__" "integer"
  ∧ Request.mk "db" "public" "users" ∈ usersRequest
  ∧ catalogStep usersRequest ∅
      (exampleRow "db" "public" "users" "__proto__" "integer")
    = Plain {[ "db" := {[ "public" := {[ "users" := ∅ ]} ]} ]}
  ∧ PostgresClient.getCatalog protoColumnWorld directClient usersRequest []
    = (Returned (Plain {[ "db" := {[ "public" := {[ "users" := ∅ ]} ]} ]}),
       [ NewPool (PostgresClient.config directClient);
         PoolQuery (PostgresClient.config directClient)
                   (catalogQuery (requestSets usersRequest)) ])
  ∧ typeAt {[ "db" := {[ "public" := {[ "users" := ∅ ]} ]} ]}
           "db" "public" "users" "__proto__"
    = None
  ∧ mapFieldType "integer" = DimensionType.NUMBER
  ∧ catalogOfRows [Request.mk "__proto__" "public" "users"]
      [exampleRow "__proto__" "public" "users" "id" "integer"]
    = Exotic.
Proof.
  split; [by_evaluation |]. split; [by_evaluation |].
  split; [by_evaluation |]. split; [vm_compute; reflexivity |].
  split; [by_evaluation |]. split; [reflexivity | by_evaluation].
Qed.

(** ** The result of runQuery *)

Lemma fieldsRecord_lookup (fields : list FieldDef.t) (n : string) :
  PostgresClient.fieldsRecord fields !! n
  = (λ f, mkFieldInfo (convertDataTypeIdToDimensionType (FieldDef.dataTypeID f)))
      <$> last (filter (λ f, FieldDef.name f = n) fields).
Proof.
  unfold PostgresClient.fieldsRecord.
  induction fields as [| f fields IH] using rev_ind; [done |].
  rewrite foldl_snoc, filter_app, filter_cons, filter_nil.
  case_decide as Hn.
  - rewrite last_snoc, <- Hn. simpl. by rewrite lookup_insert_eq.
  - rewrite app_nil_r, lookup_insert_ne by done. apply IH.
Qed.

Lemma fieldsRecord_dom (fields : list FieldDef.t) :
  dom (PostgresClient.fieldsRecord fields) = list_to_set (FieldDef.name <$> fields).
Proof.
  unfold PostgresClient.fieldsRecord.
  induction fields as [| f fields IH] using rev_ind; [set_solver |].
  rewrite foldl_snoc, dom_insert_L, IH, fmap_app, list_to_set_app_L. set_solver.
Qed.

(** C10. In the fields record of [runQuery] a name carried by two or more
    columns has the single entry of the last of them in field order, a name
    carried by one column has the entry of that column, the names of the
    record are the names of the columns, and the rows are those the pool
    answered, unchanged. *)
Theorem runQuery_fields_last_column_wins :
  (∀ (fields : list FieldDef.t) (n : string),
     PostgresClient.fieldsRecord fields !! n
     = (λ f, mkFieldInfo (convertDataTypeIdToDimensionType (FieldDef.dataTypeID f)))
         <$> last (filter (λ f, FieldDef.name f = n) fields))
  ∧ (∀ (before after : list FieldDef.t) (f : FieldDef.t),
       Forall (λ g, FieldDef.name g ≠ FieldDef.name f) after →
       PostgresClient.fieldsRecord (before ++ f :: after) !! FieldDef.name f
       = Some (mkFieldInfo
                 (convertDataTypeIdToDimensionType (FieldDef.dataTypeID f))))
  ∧ (∀ fields : list FieldDef.t,
       dom (PostgresClient.fieldsRecord fields)
       = list_to_set (FieldDef.name <$> fields))
  ∧ (∀ (w : World) (this : PostgresClient.t) (sql : string)
       (log log' : list Call) (out : RunQueryResult.t),
       PostgresClient.runQuery w this sql log = (Returned out, log')
       ↔ ∃ pool log0 results,
           PostgresClient.connect w this log = (Returned pool, log0)
           ∧ pool_query w log0 pool sql = Answers results
           ∧ log' = log0 ++ [PoolQuery pool sql]
           ∧ out = RunQueryResult.mk
                     (PostgresClient.fieldsRecord (QueryResult.fields results))
                     (QueryResult.rows results)).
Proof.
  split; [apply fieldsRecord_lookup |].
  split; [| split; [apply fieldsRecord_dom | apply runQuery_returns_iff]].
  intros before after f Hafter.
  rewrite fieldsRecord_lookup, filter_app, filter_cons_True by done.
  assert (filter (λ g, FieldDef.name g = FieldDef.name f) after = []) as ->.
  { induction Hafter as [| g after Hg _ IH]; [done |].
    by rewrite filter_cons_False. }
  by rewrite last_snoc.
Qed.

Lemma runQuery_fields_last_column_wins_witness :
  PostgresClient.fieldsRecord (QueryResult.fields exampleResult) !! "id"
  = Some (mkFieldInfo DimensionType.STRING).
Proof.
  destruct runQuery_fields_last_column_wins as (_ & H & _).
  apply (H [FieldDef.mk "id" builtins.INT4; FieldDef.mk "flag" builtins.BOOL]
           [] (FieldDef.mk "id" 25)).
  constructor.
Defined.

(** ** The calls made by connect and runQuery *)

Section CallLogs.
Variable w : World.
Variable this : PostgresClient.t.

Lemma connect_calls (log log' : list Call) (o : Outcome Pool) :
  PostgresClient.connect w this log = (o, log') →
  ∃ calls, log' = log ++ calls
           ∧ callKind <$> calls ∈ connectCallPatterns
           ∧ ((∃ pool, o = Returned pool ∧ last calls = Some (NewPool pool))
              ∨ ∃ msg, o = Thrown (mkError WarehouseConnectionError msg)).
Proof.
  destruct (PostgresClient.sshTunnel this) as [tunnel |] eqn:Htunnel.
  - rewrite (connect_with_tunnel _ _ tunnel) by done. simpl.
    destruct (ssh_connect w log _) as [msg | []].
    { intros [= <- <-]. eexists. split; [done |]. split; [by_evaluation |].
      right. by eexists. }
    destruct (ssh_addTunnel w _ _ _ _) as [msg | localPort].
    { intros [= <- <-]. eexists. split; [by rewrite <- app_assoc |].
      split; [by_evaluation |]. right. by eexists. }
    unfold createPool. destruct (pg_Pool w _ _) as [msg | []]; intros [= <- <-].
    + eexists. split; [by rewrite <- !app_assoc |]. split; [by_evaluation |].
      right. by eexists.
    + eexists. split; [by rewrite <- !app_assoc |]. split; [by_evaluation |].
      left. by eexists.
  - rewrite connect_without_tunnel by done. unfold createPool.
    destruct (pg_Pool w _ _) as [msg | []]; intros [= <- <-].
    + eexists. split; [done |]. split; [by_evaluation |]. right. by eexists.
    + eexists. split; [done |]. split; [by_evaluation |]. left. by eexists.
Qed.

(** [connect] sends no query. *)
Lemma connect_makes_no_query (log log' : list Call) (o : Outcome Pool) :
  PostgresClient.connect w this log = (o, log') →
  ∃ calls, log' = log ++ calls ∧ ∀ pool sql, PoolQuery pool sql ∉ calls.
Proof.
  intros (calls & -> & Hpat & _)%connect_calls. exists calls.
  split; [done |]. intros pool sql Hin.
  assert (KPoolQuery ∈ callKind <$> calls) as Hk.
  { by apply (list_elem_of_fmap_2 callKind _ (PoolQuery pool sql)). }
  unfold connectCallPatterns in Hpat.
  rewrite !elem_of_cons, elem_of_nil in Hpat.
  destruct Hpat as [H | [H | [H | [H | []]]]]; rewrite H in Hk;
    rewrite ?elem_of_cons, elem_of_nil in Hk; naive_solver.
Qed.
End CallLogs.

Section RunQueryLogs.
Variable w : World.
Variable this : PostgresClient.t.

Ltac explicit_calls :=
  eexists; split; [by rewrite <- ?app_assoc |];
  split; [by_evaluation |];
  split;
  [ intros anyPool anySql Hin; simpl in Hin;
    rewrite ?elem_of_cons, ?elem_of_nil in Hin; naive_solver
  | simpl;
    first [ by (right; eexists) | by (left; eexists; split; [| eexists]) ] ].

(** One [runQuery] makes each library call at most once, in the order
    connect, tunnel, pool, query; its only query is the one it was given;
    whatever it throws is a [WarehouseQueryError]. *)
Lemma runQuery_calls (sql : string) (log log' : list Call)
    (o : Outcome RunQueryResult.t) :
  PostgresClient.runQuery w this sql log = (o, log') →
  ∃ calls, log' = log ++ calls
           ∧ callKind <$> calls ∈ runQueryCallPatterns
           ∧ (∀ pool sql', PoolQuery pool sql' ∈ calls → sql' = sql)
           ∧ ((∃ out, o = Returned out
                      ∧ ∃ pool, last calls = Some (PoolQuery pool sql))
              ∨ ∃ msg, o = Thrown (mkError WarehouseQueryError msg)).
Proof.
  rewrite runQuery_unfold.
  destruct (PostgresClient.sshTunnel this) as [tunnel |] eqn:Htunnel.
  - rewrite (connect_with_tunnel _ _ tunnel) by done. simpl.
    destruct (ssh_connect w log _) as [msg | []];
      [intros [= <- <-]; explicit_calls |].
    destruct (ssh_addTunnel w _ _ _ _) as [msg | localPort];
      [intros [= <- <-]; explicit_calls |].
    unfold createPool. destruct (pg_Pool w _ _) as [msg | []];
      [intros [= <- <-]; explicit_calls |].
    destruct (pool_query w _ _ _) as [msg | results];
      intros [= <- <-]; explicit_calls.
  - rewrite connect_without_tunnel by done. unfold createPool.
    destruct (pg_Pool w _ _) as [msg | []];
      [intros [= <- <-]; explicit_calls |].
    destruct (pool_query w _ _ _) as [msg | results];
      intros [= <- <-]; explicit_calls.
Qed.

(** The message of the library failure is the message of the error that
    [connect] throws, and of the one [runQuery] throws for it. *)
Lemma connect_failure_message (sql : string) (log log0 : list Call)
    (e : JsError) :
  PostgresClient.connect w this log = (Thrown e, log0) →
  errorClass e = WarehouseConnectionError
  ∧ PostgresClient.runQuery w this sql log
    = (Thrown (mkError WarehouseQueryError (message e)), log0).
Proof.
  intros Hconnect. split.
  - destruct (connect_calls _ _ _ _ _ Hconnect) as (calls & _ & _ & [H | H]).
    + destruct H as (pool & Heq & _). discriminate.
    + destruct H as [msg Heq]. by injection Heq as ->.
  - by rewrite runQuery_unfold, Hconnect.
Qed.
End RunQueryLogs.

(** ** The query text of getCatalog *)

(** C9. The three IN-lists of the query text that [getCatalog] builds hold
    the distinct requested databases, schemas and tables, each exactly once
    and in the order of first occurrence among the requests, each wrapped
    in single quotes by plain concatenation, whatever characters the value
    contains, and joined by commas. This text is the only query text
    [getCatalog] sends to a pool, and it sends it as its last call
    whenever connecting succeeds. *)
Theorem catalogQuery_in_lists (requests : list Request.t) :
  let databases := dedupFirstOccurrence (Request.database <$> requests) in
  let schemas := dedupFirstOccurrence (Request.schema <$> requests) in
  let tables := dedupFirstOccurrence (Request.table <$> requests) in
  requestSets requests
  = RequestSets.mk (quoted <$> databases) (quoted <$> schemas) (quoted <$> tables)
  ∧ (NoDup (RequestSets.databases (requestSets requests))
     ∧ NoDup (RequestSets.schemas (requestSets requests))
     ∧ NoDup (RequestSets.tables (requestSets requests)))
  ∧ (∀ r, r ∈ requests →
       quoted (Request.database r) ∈ RequestSets.databases (requestSets requests)
       ∧ quoted (Request.schema r) ∈ RequestSets.schemas (requestSets requests)
       ∧ quoted (Request.table r) ∈ RequestSets.tables (requestSets requests))
  ∧ (∀ v, quoted v = String "'"%char (v +:+ "'")
          ∧ String.length (quoted v) = (String.length v + 2)%nat)
  ∧ catalogQuery (requestSets requests)
    = newline +:+ spaces 12 +:+ "SELECT table_catalog,"
      +:+ newline +:+ spaces 19 +:+ "table_schema,"
      +:+ newline +:+ spaces 19 +:+ "table_name,"
      +:+ newline +:+ spaces 19 +:+ "column_name,"
      +:+ newline +:+ spaces 19 +:+ "data_type"
      +:+ newline +:+ spaces 12 +:+ "FROM information_schema.columns"
      +:+ newline +:+ spaces 12 +:+ "WHERE table_catalog IN ("
          +:+ String.concat "," (quoted <$> databases) +:+ ")"
      +:+ newline +:+ spaces 14 +:+ "AND table_schema IN ("
          +:+ String.concat "," (quoted <$> schemas) +:+ ")"
      +:+ newline +:+ spaces 14 +:+ "AND table_name IN ("
          +:+ String.concat "," (quoted <$> tables) +:+ ")"
      +:+ newline +:+ spaces 8
  ∧ (∀ (w : World) (this : PostgresClient.t) (log log' : list Call)
       (o : Outcome CatalogObject),
       requests ≠ [] →
       PostgresClient.getCatalog w this requests log = (o, log') →
       ∃ calls,
         log' = log ++ calls
         ∧ (∀ pool sql, PoolQuery pool sql ∈ calls →
              sql = catalogQuery (requestSets requests))
         ∧ (∀ pool log0,
              PostgresClient.connect w this log = (Returned pool, log0) →
              last calls
              = Some (PoolQuery pool (catalogQuery (requestSets requests))))).
Proof.
  intros databases schemas tables.
  split; [apply requestSets_spec |].
  split; [| split; [| split; [| split]]].
  - rewrite requestSets_spec. simpl.
    repeat split; apply NoDup_fmap_2; try apply _;
      apply NoDup_dedupFirstOccurrence.
  - rewrite requestSets_spec. simpl. intros r Hr.
    repeat split; apply list_elem_of_fmap_2, elem_of_dedupFirstOccurrence;
      by apply list_elem_of_fmap_2.
  - intros v. split; [done |]. unfold quoted.
    rewrite !length_append. simpl. lia.
  - rewrite requestSets_spec. reflexivity.
  - intros w this log log' o Hne. rewrite getCatalog_unfold by done.
    rewrite runQuery_unfold.
    destruct (PostgresClient.connect w this log) as [[pool | e] log0] eqn:Hc.
    + destruct (connect_makes_no_query _ _ _ _ _ Hc) as (calls0 & -> & Hno).
      set (sql := catalogQuery (requestSets requests)).
      intros Hrun. exists (calls0 ++ [PoolQuery pool sql]).
      assert (log' = (log ++ calls0) ++ [PoolQuery pool sql]) as ->.
      { destruct (pool_query w _ pool sql) as [msg | results].
        - by injection Hrun as _ <-.
        - revert Hrun. unfold PostgresClient.reduceRows. simpl.
          destruct (catalogOfRows requests _); [by intros [= _ <-] |].
          by destruct (exotic_reduce w _ _); intros [= _ <-]. }
      split; [by rewrite app_assoc |]. split.
      * intros pool' sql' [Hin | Hin]%elem_of_app.
        -- by apply Hno in Hin.
        -- apply list_elem_of_singleton in Hin. by injection Hin as _ ->.
      * intros pool' log0' [= <- _]. by rewrite last_snoc.
    + destruct (connect_makes_no_query _ _ _ _ _ Hc) as (calls0 & -> & Hno).
      intros [= _ <-]. exists calls0. split; [done |]. split.
      * intros pool sql Hin. by apply Hno in Hin.
      * intros pool log0' [=].
Qed.

Lemma catalogQuery_in_lists_witness :
  requestSets exampleRequests
  = RequestSets.mk ["'db'"; "'d'b'"] ["'public'"; "'s2'"] ["'users'"; "'orders'"]
  ∧ quoted (Request.database (Request.mk "d'b" "s2" "users"))
    ∈ RequestSets.databases (requestSets exampleRequests)
  ∧ ∃ calls,
      (PostgresClient.getCatalog healthyWorld directClient exampleRequests []).2
      = [] ++ calls
      ∧ last calls
        = Some (PoolQuery (PostgresClient.config directClient)
                  (catalogQuery (requestSets exampleRequests))).
Proof.
  destruct (catalogQuery_in_lists exampleRequests)
    as (Hsets & _ & Hin & _ & _ & Hsent).
  split; [| split].
  - rewrite Hsets. reflexivity.
  - apply (Hin (Request.mk "d'b" "s2" "users")). by_evaluation.
  - destruct (Hsent healthyWorld directClient []
                (PostgresClient.getCatalog healthyWorld directClient
                   exampleRequests []).2
                (PostgresClient.getCatalog healthyWorld directClient
                   exampleRequests []).1)
      as (calls & Hlog & _ & Hlast).
    + discriminate.
    + by destruct (PostgresClient.getCatalog _ _ _ _).
    + exists calls. split; [exact Hlog |].
      apply (Hlast _ [NewPool (PostgresClient.config directClient)]).
      reflexivity.
Defined.

(** ** test and runQuery *)

(** C7. [test] performs its check through [runQuery] with the query text
    'SELECT 1' and no other query: it returns, with no value, exactly when
    that [runQuery] returns, and throws what it throws. [runQuery] returns,
    when connecting succeeds and the pool answers, an object with the
    fields record, in which every column name has an entry and every entry
    holds the dimension type of the dataTypeID of a column of that name,
    and with the rows of the answer. *)
Theorem test_runs_SELECT_1 (w : World) (this : PostgresClient.t)
    (log : list Call) :
  PostgresClient.test w this log
  = match PostgresClient.runQuery w this "SELECT 1" log with
    | (Returned _, log') => (Returned tt, log')
    | (Thrown e, log') => (Thrown e, log')
    end
  ∧ (∀ log', PostgresClient.test w this log = (Returned tt, log')
             ↔ ∃ out, PostgresClient.runQuery w this "SELECT 1" log
                      = (Returned out, log'))
  ∧ (∀ o log', PostgresClient.test w this log = (o, log') →
       ∃ calls, log' = log ++ calls
                ∧ callKind <$> calls ∈ runQueryCallPatterns
                ∧ ∀ pool sql, PoolQuery pool sql ∈ calls → sql = "SELECT 1")
  ∧ (∀ sql pool log0 results,
       PostgresClient.connect w this log = (Returned pool, log0) →
       pool_query w log0 pool sql = Answers results →
       ∃ out,
         PostgresClient.runQuery w this sql log
         = (Returned out, log0 ++ [PoolQuery pool sql])
         ∧ RunQueryResult.rows out = QueryResult.rows results
         ∧ (∀ f, f ∈ QueryResult.fields results →
              is_Some (RunQueryResult.fields out !! FieldDef.name f))
         ∧ (∀ n info, RunQueryResult.fields out !! n = Some info →
              ∃ f, f ∈ QueryResult.fields results
                   ∧ FieldDef.name f = n
                   ∧ type info
                     = convertDataTypeIdToDimensionType (FieldDef.dataTypeID f)))
  ∧ (∀ sql log' out,
       PostgresClient.runQuery w this sql log = (Returned out, log') →
       ∃ pool log0 results,
         PostgresClient.connect w this log = (Returned pool, log0)
         ∧ pool_query w log0 pool sql = Answers results
         ∧ RunQueryResult.rows out = QueryResult.rows results
         ∧ RunQueryResult.fields out
           = PostgresClient.fieldsRecord (QueryResult.fields results)).
Proof.
  split; [apply test_unfold |]. split; [| split; [| split]].
  - intros log'. rewrite test_unfold.
    destruct (PostgresClient.runQuery w this "SELECT 1" log) as [[out | e] log1].
    + split; [intros [= <-]; by exists out | by intros [out' [= _ <-]]].
    + split; [done | by intros [out' ?]].
  - intros o log'. rewrite test_unfold.
    destruct (PostgresClient.runQuery w this "SELECT 1" log) as [o1 log1] eqn:Hrun.
    destruct (runQuery_calls _ _ _ _ _ _ Hrun) as (calls & -> & Hkinds & Hsql & _).
    destruct o1; intros [= <- <-]; by exists calls.
  - intros sql pool log0 results Hconnect Hquery. eexists. split.
    { apply runQuery_returns_iff. by exists pool, log0, results. }
    simpl. split; [done |]. split.
    + intros f Hf. apply elem_of_dom. rewrite fieldsRecord_dom.
      apply elem_of_list_to_set. by apply list_elem_of_fmap_2.
    + intros n info. rewrite fieldsRecord_lookup.
      destruct (last _) as [f |] eqn:Hlast; [| done]. intros [= <-].
      apply last_Some_elem_of, list_elem_of_filter in Hlast as [Hn Hf].
      by exists f.
  - intros sql log' out Hrun.
    apply runQuery_returns_iff in Hrun as (pool & log0 & results & ? & ? & _ & ->).
    by exists pool, log0, results.
Qed.

Lemma test_runs_SELECT_1_witness :
  PostgresClient.test healthyWorld tunnelledClient []
  = (Returned tt,
     [ SshConnect (SSHConfig.mk "jump" "KEY" 22 "bastion");
       SshAddTunnel (SSHConfig.mk "jump" "KEY" 22 "bastion") "warehouse" 5432;
       NewPool (PoolConfig.mk "localhost" 40022 "analytics" "reader" "pw" None);
       PoolQuery (PoolConfig.mk "localhost" 40022 "analytics" "reader" "pw" None)
                 "SELECT 1" ]).
Proof.
  destruct (test_runs_SELECT_1 healthyWorld tunnelledClient []) as (_ & H & _).
  apply H. eexists. reflexivity.
Defined.

(** ** Error typing *)

(** Every error [connect] throws is a [WarehouseConnectionError]. *)
Lemma connect_error_class (w : World) (this : PostgresClient.t)
    (log log' : list Call) (e : JsError) :
  PostgresClient.connect w this log = (Thrown e, log') →
  errorClass e = WarehouseConnectionError.
Proof. intros H. by apply (connect_failure_message w this EmptyString) in H as [? _]. Qed.


(** A failure of the query itself is thrown as a [WarehouseQueryError]
    with the message of the failure, after the one attempt. *)
Lemma runQuery_query_failure (w : World) (this : PostgresClient.t) (sql : string)
    (log log0 : list Call) (pool : Pool) (msg : string) :
  PostgresClient.connect w this log = (Returned pool, log0) →
  pool_query w log0 pool sql = Fails msg →
  PostgresClient.runQuery w this sql log
  = (Thrown (mkError WarehouseQueryError msg), log0 ++ [PoolQuery pool sql]).
Proof. intros Hconnect Hquery. by rewrite runQuery_unfold, Hconnect, Hquery. Qed.

(** C6. A failure while establishing the SSH tunnel is rethrown by
    [connect] as a [WarehouseConnectionError], but [runQuery] catches that
    error again and rethrows it as a [WarehouseQueryError]: with a refused
    SSH connection, [runQuery] and [test] throw a query error with the
    message of the failure, after the single attempt to connect. *)
Theorem refused_tunnel_surfaces_as_query_error :
  PostgresClient.connect sshRefusedWorld tunnelledClient []
  = (Thrown (mkError WarehouseConnectionError "connect ECONNREFUSED"),
     [SshConnect (SSHConfig.mk "jump" "KEY" 22 "bastion")])
  ∧ PostgresClient.runQuery sshRefusedWorld tunnelledClient "SELECT 1" []
    = (Thrown (mkError WarehouseQueryError "connect ECONNREFUSED"),
       [SshConnect (SSHConfig.mk "jump" "KEY" 22 "bastion")])
  ∧ PostgresClient.test sshRefusedWorld tunnelledClient []
    = (Thrown (mkError WarehouseQueryError "connect ECONNREFUSED"),
       [SshConnect (SSHConfig.mk "jump" "KEY" 22 "bastion")]).
Proof. repeat split. Qed.

(** The query failure of the same claim, evaluated: one attempt, a
    [WarehouseQueryError] with the message of the failure. *)
Example rejected_query_is_query_error :
  PostgresClient.runQuery queryRejectedWorld directClient "SELEC 1" []
  = (Thrown (mkError WarehouseQueryError "syntax error at or near SELEC"),
     [ NewPool (PoolConfig.mk "warehouse" 5432 "analytics" "reader" "pw" None);
       PoolQuery (PoolConfig.mk "warehouse" 5432 "analytics" "reader" "pw" None)
                 "SELEC 1" ]).
Proof. reflexivity. Qed.

(** * Further properties of the code *)

(** ** The case tables *)

(** X1. The groups of case labels of the two mapping functions are disjoint,
    so the inputs mapped to NUMBER, DATE, TIMESTAMP and BOOLEAN are exactly
    the labels of the respective group, and the inputs mapped to STRING are
    exactly those outside the case table. *)
Theorem type_mapping_preimages :
  (∀ ty : string,
     (mapFieldType ty = DimensionType.NUMBER ↔ ty ∈ mapFieldType_NUMBER_cases)
     ∧ (mapFieldType ty = DimensionType.DATE ↔ ty ∈ mapFieldType_DATE_cases)
     ∧ (mapFieldType ty = DimensionType.TIMESTAMP
        ↔ ty ∈ mapFieldType_TIMESTAMP_cases)
     ∧ (mapFieldType ty = DimensionType.BOOLEAN ↔ ty ∈ mapFieldType_BOOLEAN_cases)
     ∧ (mapFieldType ty = DimensionType.STRING ↔ ty ∉ mapFieldType_cases))
  ∧ (∀ dataTypeId : Z,
       (convertDataTypeIdToDimensionType dataTypeId = DimensionType.NUMBER
        ↔ dataTypeId ∈ convert_NUMBER_cases)
       ∧ (convertDataTypeIdToDimensionType dataTypeId = DimensionType.DATE
          ↔ dataTypeId ∈ convert_DATE_cases)
       ∧ (convertDataTypeIdToDimensionType dataTypeId = DimensionType.TIMESTAMP
          ↔ dataTypeId ∈ convert_TIMESTAMP_cases)
       ∧ (convertDataTypeIdToDimensionType dataTypeId = DimensionType.BOOLEAN
          ↔ dataTypeId ∈ convert_BOOLEAN_cases)
       ∧ (convertDataTypeIdToDimensionType dataTypeId = DimensionType.STRING
          ↔ dataTypeId ∉ convert_cases)).
Proof.
  split.
  - intros ty. destruct (mapFieldType_table ty) as (Hn & Hd & Ht & Hb).
    pose proof (mapFieldType_default ty) as Hs.
    unfold mapFieldType_cases in *. rewrite !elem_of_app in *.
    unfold mapFieldType in *.
    repeat case_bool_decide; (repeat split; intros; try done; try tauto);
      try (exfalso; auto; fail); naive_solver.
  - intros id. destruct (convert_table id) as (Hn & Hd & Ht & Hb).
    pose proof (convert_default id) as Hs.
    unfold convert_cases in *. rewrite !elem_of_app in *.
    unfold convertDataTypeIdToDimensionType in *.
    repeat case_bool_decide; (repeat split; intros; try done; try tauto);
      try (exfalso; auto; fail); naive_solver.
Qed.

Lemma type_mapping_preimages_witness :
  mapFieldType "timetz" = DimensionType.TIMESTAMP
  ∧ convertDataTypeIdToDimensionType 1184 = DimensionType.TIMESTAMP.
Proof.
  destruct type_mapping_preimages as [Hname Hoid]. split.
  - apply (Hname "timetz"). by_evaluation.
  - apply (Hoid 1184). by_evaluation.
Defined.

(** X2. Every label of the case table of [mapFieldType] is a member of the
    enum [PostgresTypes], and the members of the enum that the function
    maps to STRING are the eleven the table leaves out: INT, JSON, JSONB,
    CHAR, CHARACTER, NCHAR, BPCHAR, VARCHAR, CHARACTER_VARYING, NVARCHAR and
    TEXT. In particular the alias INT is not mapped to NUMBER. *)
Theorem mapFieldType_on_enum_members :
  mapFieldType_cases ⊆ PostgresTypes_members
  ∧ NoDup PostgresTypes_members
  ∧ ∀ ty, ty ∈ PostgresTypes_members →
          (mapFieldType ty = DimensionType.STRING
           ↔ ty ∈ [ PostgresTypes.INT; PostgresTypes.JSON; PostgresTypes.JSONB;
                    PostgresTypes.CHAR; PostgresTypes.CHARACTER;
                    PostgresTypes.NCHAR; PostgresTypes.BPCHAR;
                    PostgresTypes.VARCHAR; PostgresTypes.CHARACTER_VARYING;
                    PostgresTypes.NVARCHAR; PostgresTypes.TEXT ]).
Proof.
  split; [| split; [by_evaluation |]].
  - intros ty Hin. unfold mapFieldType_cases in Hin.
    repeat (apply elem_of_cons in Hin as [-> | Hin]; [by_evaluation |]).
    by apply elem_of_nil in Hin.
  - intros ty Hin. by_evaluation_in Hin.
Qed.

Lemma mapFieldType_on_enum_members_witness :
  mapFieldType PostgresTypes.JSONB = DimensionType.STRING.
Proof.
  destruct mapFieldType_on_enum_members as (_ & _ & H).
  apply (H PostgresTypes.JSONB); by_evaluation.
Defined.

(** ** encodeURIComponent and the stored credentials *)

Lemma append_empty_l (s : string) : EmptyString +:+ s = s.
Proof. reflexivity. Qed.

Lemma length_Encode (s : string) :
  (String.length s ≤ String.length (Encode s) ≤ 3 * String.length s)%nat.
Proof.
  induction s as [| c s IH]; simpl; [lia |].
  destruct (uriUnreserved c); unfold percentEncode;
    rewrite ?length_append; simpl; lia.
Qed.

Lemma Encode_fixed_iff (s : string) :
  Encode s = s ↔ allUnreserved s = true.
Proof.
  unfold allUnreserved. induction s as [| c s IH]; simpl; [done |].
  destruct (uriUnreserved c) eqn:Hc; simpl.
  - rewrite <- IH. split; [by intros [= ->] | by intros ->].
  - split; [| done]. intros H.
    pose proof (length_Encode s) as Hlen.
    apply (f_equal String.length) in H.
    rewrite length_append in H. simpl in H. lia.
Qed.

Lemma percentDecode_percentEncode (c : ascii) :
  percentDecode (percentEncode c) = c.
Proof. destruct c as [[] [] [] [] [] [] [] []]; reflexivity. Qed.

#[global] Instance Encode_inj : Inj (=) (=) Encode.
Proof.
  intros s. induction s as [| c s IH]; intros [| c' s'] H; simpl in H.
  - done.
  - by destruct (uriUnreserved c').
  - by destruct (uriUnreserved c).
  - destruct (uriUnreserved c) eqn:Hc, (uriUnreserved c') eqn:Hc'; simpl in H.
    + injection H as -> H. f_equal. by apply IH.
    + injection H as -> _. discriminate.
    + injection H as <- _. discriminate.
    + injection H as H1 H2 H3.
      assert (c = c') as ->.
      { rewrite <- (percentDecode_percentEncode c),
                <- (percentDecode_percentEncode c').
        unfold percentEncode. by rewrite H1, H2. }
      f_equal. by apply IH.
Qed.

Lemma onlyUriCharacters_app (s1 s2 : string) :
  onlyUriCharacters (s1 +:+ s2) = onlyUriCharacters s1 && onlyUriCharacters s2.
Proof.
  unfold onlyUriCharacters. induction s1 as [| c s1 IH]; simpl; [done |].
  by rewrite IH, andb_assoc.
Qed.

Lemma onlyUriCharacters_percentEncode (c : ascii) :
  onlyUriCharacters (percentEncode c) = true.
Proof. destruct c as [[] [] [] [] [] [] [] []]; reflexivity. Qed.

Lemma onlyUriCharacters_Encode (s : string) :
  onlyUriCharacters (Encode s) = true.
Proof.
  induction s as [| c s IH]; simpl; [done |].
  destruct (uriUnreserved c) eqn:Hc.
  - unfold onlyUriCharacters in *. simpl. by rewrite Hc, orb_true_r, IH.
  - by rewrite onlyUriCharacters_app, onlyUriCharacters_percentEncode, IH.
Qed.

(** X3. A constructed client holds a credential string unchanged exactly
    when all its characters are letters, digits or the marks
    [- _ . ! ~ * ' ( )]; a host, database, user or password with any other
    character reaches the pool configuration altered. *)
Theorem constructor_alters_reserved_characters
    (credentials : FullPostgresCredentials.t) (client : PostgresClient.t) :
  PostgresWarehouseClient.constructor credentials = Returned client →
  (PoolConfig.host (PostgresClient.config client)
     = FullPostgresCredentials.host credentials
   ↔ allUnreserved (FullPostgresCredentials.host credentials) = true)
  ∧ (PoolConfig.database (PostgresClient.config client)
       = FullPostgresCredentials.dbname credentials
     ↔ allUnreserved (FullPostgresCredentials.dbname credentials) = true)
  ∧ (PoolConfig.user (PostgresClient.config client)
       = FullPostgresCredentials.user credentials
     ↔ allUnreserved (FullPostgresCredentials.user credentials) = true)
  ∧ (PoolConfig.password (PostgresClient.config client)
       = FullPostgresCredentials.password credentials
     ↔ allUnreserved (FullPostgresCredentials.password credentials) = true).
Proof.
  intros Hc.
  destruct (constructor_Returned _ _ Hc) as (_ & -> & -> & -> & -> & _).
  repeat split; apply Encode_fixed_iff.
Qed.

Lemma constructor_alters_reserved_characters_witness :
  ∃ client,
    PostgresWarehouseClient.constructor exampleCredentials = Returned client
    ∧ PoolConfig.host (PostgresClient.config client) = "db.example.com"
    ∧ PoolConfig.password (PostgresClient.config client) ≠ "p/w?".
Proof.
  eexists. split; [reflexivity |].
  destruct (constructor_alters_reserved_characters exampleCredentials _ eq_refl)
    as (Hhost & _ & _ & Hpassword).
  split.
  - apply Hhost. reflexivity.
  - intros Heq. apply Hpassword in Heq. discriminate.
Defined.

(** X4. The constructor keeps credentials apart: two credentials records
    from which the same client is constructed have the same host, port,
    database name, user, password and tunnel settings. *)
Theorem constructor_separates_credentials
    (credentials1 credentials2 : FullPostgresCredentials.t)
    (client : PostgresClient.t) :
  PostgresWarehouseClient.constructor credentials1 = Returned client →
  PostgresWarehouseClient.constructor credentials2 = Returned client →
  FullPostgresCredentials.host credentials1
    = FullPostgresCredentials.host credentials2
  ∧ FullPostgresCredentials.port credentials1
    = FullPostgresCredentials.port credentials2
  ∧ FullPostgresCredentials.dbname credentials1
    = FullPostgresCredentials.dbname credentials2
  ∧ FullPostgresCredentials.user credentials1
    = FullPostgresCredentials.user credentials2
  ∧ FullPostgresCredentials.password credentials1
    = FullPostgresCredentials.password credentials2
  ∧ FullPostgresCredentials.sshTunnel credentials1
    = FullPostgresCredentials.sshTunnel credentials2.
Proof.
  intros H1 H2.
  destruct (constructor_Returned _ _ H1)
    as (_ & Hh1 & Hd1 & Hu1 & Hp1 & Hport1 & Ht1 & _).
  destruct (constructor_Returned _ _ H2)
    as (_ & Hh2 & Hd2 & Hu2 & Hp2 & Hport2 & Ht2 & _).
  repeat split; try (apply (inj Encode)); congruence.
Qed.

Lemma constructor_separates_credentials_witness :
  FullPostgresCredentials.password
    (FullPostgresCredentials.mk "h" 5432 "d" "u" "p@ss" (Some "allow") None)
  = FullPostgresCredentials.password
      (FullPostgresCredentials.mk "h" 5432 "d" "u" "p@ss" (Some "require") None).
Proof.
  eapply (constructor_separates_credentials
            (FullPostgresCredentials.mk "h" 5432 "d" "u" "p@ss" (Some "allow") None)
            (FullPostgresCredentials.mk "h" 5432 "d" "u" "p@ss" (Some "require") None));
    reflexivity.
Defined.

(** X5. Every string the constructor puts in the pool configuration as
    host, database, user or password consists of letters, digits, the
    marks [- _ . ! ~ * ' ( )] and percent signs only. *)
Theorem constructor_stores_uri_safe_strings
    (credentials : FullPostgresCredentials.t) (client : PostgresClient.t) :
  PostgresWarehouseClient.constructor credentials = Returned client →
  Forall (λ stored : string, onlyUriCharacters stored = true)
    [ PoolConfig.host (PostgresClient.config client);
      PoolConfig.database (PostgresClient.config client);
      PoolConfig.user (PostgresClient.config client);
      PoolConfig.password (PostgresClient.config client) ].
Proof.
  intros Hc.
  destruct (constructor_Returned _ _ Hc) as (_ & -> & -> & -> & -> & _).
  repeat constructor; apply onlyUriCharacters_Encode.
Qed.

Lemma constructor_stores_uri_safe_strings_witness :
  ∃ client,
    PostgresWarehouseClient.constructor exampleCredentials = Returned client
    ∧ onlyUriCharacters (PoolConfig.user (PostgresClient.config client)) = true.
Proof.
  eexists. split; [reflexivity |].
  pose proof (constructor_stores_uri_safe_strings exampleCredentials _ eq_refl) as H.
  apply Forall_cons in H as [_ H]. apply Forall_cons in H as [_ H].
  apply Forall_cons in H as [H _]. exact H.
Defined.

(** ** connect *)

(** A property of each call of an explicit list, by cases. *)
Ltac each_call :=
  repeat first
    [ apply Forall_nil_2
    | apply Forall_cons; split; [first [done | by left | by right] |] ].

(** The pool and the calls of a [connect] that returns. *)
Lemma connect_returns_pool (w : World) (this : PostgresClient.t)
    (log log' : list Call) (pool : Pool) :
  PostgresClient.connect w this log = (Returned pool, log') →
  match PostgresClient.sshTunnel this with
  | None =>
      pool = PostgresClient.config this
      ∧ log' = log ++ [NewPool (PostgresClient.config this)]
  | Some tunnel =>
      let sshConfig :=
        SSHConfig.mk (SSHTunnelConfigSecrets.username tunnel)
                     (SSHTunnelConfigSecrets.privateKey tunnel)
                     (SSHTunnelConfigSecrets.port tunnel)
                     (SSHTunnelConfigSecrets.host tunnel) in
      let host := PoolConfig.host (PostgresClient.config this) in
      let port := PoolConfig.port (PostgresClient.config this) in
      ssh_addTunnel w (log ++ [SshConnect sshConfig]) sshConfig host port
        = Answers (PoolConfig.port pool)
      ∧ PoolConfig.host pool = "localhost"
      ∧ PoolConfig.database pool = PoolConfig.database (PostgresClient.config this)
      ∧ PoolConfig.user pool = PoolConfig.user (PostgresClient.config this)
      ∧ PoolConfig.password pool = PoolConfig.password (PostgresClient.config this)
      ∧ PoolConfig.ssl pool = PoolConfig.ssl (PostgresClient.config this)
      ∧ log' = log ++ [ SshConnect sshConfig; SshAddTunnel sshConfig host port;
                        NewPool pool ]
  end.
Proof.
  destruct (PostgresClient.sshTunnel this) as [tunnel |] eqn:Htunnel.
  - rewrite (connect_with_tunnel _ _ tunnel) by done. simpl.
    destruct (ssh_connect w log _) as [msg | []]; [done |].
    fold (sshConfigOf tunnel).
    destruct (ssh_addTunnel w _ _ _ _) as [msg | localPort] eqn:Hadd; [done |].
    unfold createPool. destruct (pg_Pool w _ _) as [msg | []]; [done |].
    intros [= <- <-]. simpl. rewrite <- !app_assoc. done.
  - rewrite connect_without_tunnel by done. unfold createPool.
    destruct (pg_Pool w _ _) as [msg | []]; [done |]. by intros [= <- <-].
Qed.

(** X6. When [connect] returns a pool: without tunnel settings the pool has
    the client's own configuration and the creation of the pool is the
    only library call; with tunnel settings the SSH connection is opened
    with the four tunnel settings, the tunnel is asked for the client's
    host and port, and the pool is created for host 'localhost' and the
    local port the tunnel answered, with database, user, password and ssl
    as the client has them. *)
Theorem connect_pool_configuration (w : World) (this : PostgresClient.t)
    (log log' : list Call) (pool : Pool) :
  PostgresClient.connect w this log = (Returned pool, log') →
  match PostgresClient.sshTunnel this with
  | None =>
      pool = PostgresClient.config this
      ∧ log' = log ++ [NewPool (PostgresClient.config this)]
  | Some tunnel =>
      let sshConfig :=
        SSHConfig.mk (SSHTunnelConfigSecrets.username tunnel)
                     (SSHTunnelConfigSecrets.privateKey tunnel)
                     (SSHTunnelConfigSecrets.port tunnel)
                     (SSHTunnelConfigSecrets.host tunnel) in
      let host := PoolConfig.host (PostgresClient.config this) in
      let port := PoolConfig.port (PostgresClient.config this) in
      ssh_addTunnel w (log ++ [SshConnect sshConfig]) sshConfig host port
        = Answers (PoolConfig.port pool)
      ∧ PoolConfig.host pool = "localhost"
      ∧ PoolConfig.database pool = PoolConfig.database (PostgresClient.config this)
      ∧ PoolConfig.user pool = PoolConfig.user (PostgresClient.config this)
      ∧ PoolConfig.password pool = PoolConfig.password (PostgresClient.config this)
      ∧ PoolConfig.ssl pool = PoolConfig.ssl (PostgresClient.config this)
      ∧ log' = log ++ [ SshConnect sshConfig; SshAddTunnel sshConfig host port;
                        NewPool pool ]
  end.
Proof. apply connect_returns_pool. Qed.

Lemma connect_pool_configuration_witness :
  PoolConfig.host (PoolConfig.mk "localhost" 40022 "analytics" "reader" "pw" None)
  = "localhost"
  ∧ ssh_addTunnel healthyWorld
      [SshConnect (SSHConfig.mk "jump" "KEY" 22 "bastion")]
      (SSHConfig.mk "jump" "KEY" 22 "bastion") "warehouse" 5432
    = Answers 40022.
Proof.
  pose proof (connect_pool_configuration healthyWorld tunnelledClient []
                _ (PoolConfig.mk "localhost" 40022 "analytics" "reader" "pw" None)
                eq_refl) as H.
  simpl in H. destruct H as (Hadd & Hhost & _). split; [exact Hhost | exact Hadd].
Defined.

(** X7. A client without tunnel settings never calls the SSH library:
    whatever [connect] and [runQuery] do, no call of theirs is an SSH
    connection or a tunnel request. *)
Theorem no_tunnel_no_ssh_call (w : World) (this : PostgresClient.t)
    (sql : string) (log : list Call) :
  PostgresClient.sshTunnel this = None →
  (∃ calls, (PostgresClient.connect w this log).2 = log ++ calls
            ∧ Forall (λ c, callKind c = KNewPool) calls)
  ∧ (∃ calls, (PostgresClient.runQuery w this sql log).2 = log ++ calls
              ∧ Forall (λ c, callKind c = KNewPool ∨ callKind c = KPoolQuery) calls).
Proof.
  intros Hnone. split.
  - rewrite connect_without_tunnel by done. unfold createPool.
    destruct (pg_Pool w _ _); eexists; (split; [done |]); each_call.
  - rewrite runQuery_unfold, connect_without_tunnel by done. unfold createPool.
    destruct (pg_Pool w _ _) as [msg | []].
    { eexists; (split; [done |]). each_call. }
    destruct (pool_query w _ _ _); simpl; rewrite <- app_assoc;
      eexists; (split; [done |]); each_call.
Qed.

Lemma no_tunnel_no_ssh_call_witness :
  ∃ calls,
    (PostgresClient.runQuery healthyWorld directClient "SELECT 1" []).2 = [] ++ calls
    ∧ Forall (λ c, callKind c = KNewPool ∨ callKind c = KPoolQuery) calls.
Proof.
  apply (no_tunnel_no_ssh_call healthyWorld directClient "SELECT 1" []).
  reflexivity.
Defined.

(** ** runQuery *)

(** X8. When [runQuery] throws, the error is a [WarehouseQueryError] whose
    message is the message with which a library call failed, and that
    call is the last one made: nothing is attempted after a failure. *)
Theorem runQuery_stops_at_first_failure (w : World) (this : PostgresClient.t)
    (sql : string) (log log' : list Call) (e : JsError) :
  PostgresClient.runQuery w this sql log = (Thrown e, log') →
  errorClass e = WarehouseQueryError
  ∧ ∃ before failed,
      log' = log ++ before ++ [failed]
      ∧ failureOf w (log ++ before) failed = Some (message e).
Proof.
  rewrite runQuery_unfold.
  destruct (PostgresClient.sshTunnel this) as [tunnel |] eqn:Htunnel.
  - rewrite (connect_with_tunnel _ _ tunnel) by done. simpl.
    destruct (ssh_connect w log _) as [msg | []] eqn:Hssh.
    { intros [= <- <-]. split; [done |].
      exists [], (SshConnect (sshConfigOf tunnel)). split; [done |].
      simpl. by rewrite app_nil_r, Hssh. }
    destruct (ssh_addTunnel w _ _ _ _) as [msg | localPort] eqn:Hadd.
    { intros [= <- <-]. split; [done |].
      eexists [SshConnect (sshConfigOf tunnel)], (SshAddTunnel _ _ _).
      split; [by rewrite <- app_assoc |]. simpl. by rewrite Hadd. }
    unfold createPool. destruct (pg_Pool w _ _) as [msg | []] eqn:Hpool.
    { intros [= <- <-]. split; [done |].
      eexists [SshConnect (sshConfigOf tunnel); SshAddTunnel _ _ _], (NewPool _).
      split; [by rewrite <- !app_assoc |].
      rewrite <- app_assoc in Hpool. simpl in *. by rewrite Hpool. }
    destruct (pool_query w _ _ _) as [msg | results] eqn:Hquery; [| done].
    intros [= <- <-]. split; [done |].
    eexists [SshConnect (sshConfigOf tunnel); SshAddTunnel _ _ _; NewPool _],
            (PoolQuery _ _).
    split; [by rewrite <- !app_assoc |].
    rewrite <- !app_assoc in Hquery. simpl in *. by rewrite Hquery.
  - rewrite connect_without_tunnel by done. unfold createPool.
    destruct (pg_Pool w _ _) as [msg | []] eqn:Hpool.
    { intros [= <- <-]. split; [done |].
      exists [], (NewPool (PostgresClient.config this)). split; [done |].
      simpl. by rewrite app_nil_r, Hpool. }
    destruct (pool_query w _ _ _) as [msg | results] eqn:Hquery; [| done].
    intros [= <- <-]. split; [done |].
    eexists [NewPool _], (PoolQuery _ _).
    split; [by rewrite <- !app_assoc |]. simpl. by rewrite Hquery.
Qed.

Lemma runQuery_stops_at_first_failure_witness :
  ∃ before failed,
    [ NewPool (PoolConfig.mk "warehouse" 5432 "analytics" "reader" "pw" None);
      PoolQuery (PoolConfig.mk "warehouse" 5432 "analytics" "reader" "pw" None)
                "SELEC 1" ]
    = [] ++ before ++ [failed]
    ∧ failureOf queryRejectedWorld ([] ++ before) failed
      = Some "syntax error at or near SELEC".
Proof.
  apply (runQuery_stops_at_first_failure queryRejectedWorld directClient
           "SELEC 1" [] _
           (mkError WarehouseQueryError "syntax error at or near SELEC")).
  reflexivity.
Defined.

(** X9. Each [runQuery] that returns has created a pool of its own and run
    its query on that pool: its calls end with the creation of a pool
    followed by the query on it, after at most the two SSH calls. Two
    invocations in sequence therefore create two pools; none is reused. *)
Theorem runQuery_creates_a_pool_per_invocation (w : World)
    (this : PostgresClient.t) (log : list Call) :
  (∀ sql log' out,
     PostgresClient.runQuery w this sql log = (Returned out, log') →
     ∃ before pool,
       log' = log ++ before ++ [NewPool pool; PoolQuery pool sql]
       ∧ Forall (λ c, callKind c = KSshConnect ∨ callKind c = KSshAddTunnel) before)
  ∧ (∀ sql1 sql2 log' out,
       (_ ← PostgresClient.runQuery w this sql1;
        PostgresClient.runQuery w this sql2) log = (Returned out, log') →
       ∃ calls,
         log' = log ++ calls
         ∧ length (filter (λ c, callKind c = KNewPool) calls) = 2%nat
         ∧ length (filter (λ c, callKind c = KPoolQuery) calls) = 2%nat).
Proof.
  assert (∀ log sql log' out,
            PostgresClient.runQuery w this sql log = (Returned out, log') →
            ∃ before pool,
              log' = log ++ before ++ [NewPool pool; PoolQuery pool sql]
              ∧ Forall (λ c, callKind c = KSshConnect ∨ callKind c = KSshAddTunnel)
                       before) as Hone.
  { clear log. intros log sql log' out Hrun.
    apply runQuery_returns_iff in Hrun as (pool & log0 & results & Hc & _ & -> & _).
    pose proof (connect_returns_pool _ _ _ _ _ Hc) as Hcfg.
    destruct (PostgresClient.sshTunnel this) as [tunnel |].
    - destruct Hcfg as (_ & _ & _ & _ & _ & _ & ->).
      eexists [_; _], pool. split; [by rewrite <- !app_assoc |]. each_call.
    - destruct Hcfg as [-> ->]. exists [], (PostgresClient.config this).
      split; [by rewrite <- !app_assoc | constructor]. }
  split; [apply Hone |].
  intros sql1 sql2 log' out. unfold mbind, M_bind.
  destruct (PostgresClient.runQuery w this sql1 log) as [[out1 | e] log1] eqn:H1;
    [| done].
  intros H2.
  apply Hone in H1 as (before1 & pool1 & -> & Hb1).
  apply Hone in H2 as (before2 & pool2 & -> & Hb2).
  eexists. split; [by rewrite <- !app_assoc |].
  assert (∀ before,
            Forall (λ c, callKind c = KSshConnect ∨ callKind c = KSshAddTunnel) before →
            filter (λ c, callKind c = KNewPool) before = []
            ∧ filter (λ c, callKind c = KPoolQuery) before = []) as Hnone.
  { intros before Hb. induction Hb as [| c before Hc _ [IH1 IH2]]; [done |].
    rewrite !filter_cons_False by (intros Hk; rewrite Hk in Hc; naive_solver).
    done. }
  destruct (Hnone _ Hb1) as [Hp1 Hq1]. destruct (Hnone _ Hb2) as [Hp2 Hq2].
  rewrite !filter_app, Hp1, Hp2, Hq1, Hq2. done.
Qed.

Lemma runQuery_creates_a_pool_per_invocation_witness :
  ∃ calls,
    (PostgresClient.test healthyWorld directClient
       (PostgresClient.test healthyWorld directClient []).2).2
    = [] ++ calls
    ∧ length (filter (λ c, callKind c = KNewPool) calls) = 2%nat
    ∧ length (filter (λ c, callKind c = KPoolQuery) calls) = 2%nat.
Proof.
  destruct (runQuery_creates_a_pool_per_invocation healthyWorld directClient [])
    as [_ H].
  apply (H "SELECT 1" "SELECT 1" _
           (RunQueryResult.mk
              (PostgresClient.fieldsRecord (QueryResult.fields exampleResult))
              (QueryResult.rows exampleResult))).
  reflexivity.
Defined.

(** ** getCatalog and the libraries *)



(** After the query the reduction can still throw: here the pool answers
    with a requested row of the table named [constructor], and the realm
    answers the writes into the built-in function with a [TypeError]. *)
Example getCatalog_throws_TypeError :
  PostgresClient.getCatalog constructorTableWorld directClient
    [Request.mk "db" "public" "constructor"] []
  = (Thrown (mkError TypeError "Cannot assign to read only property"),
     [ NewPool (PostgresClient.config directClient);
       PoolQuery (PostgresClient.config directClient)
         (catalogQuery (requestSets [Request.mk "db" "public" "constructor"])) ]).
Proof. vm_compute. reflexivity. Qed.

(** ** The shape of the catalog object *)


Lemma tableAt_writeRow (own : Catalog) (c0 s0 t0 col : string)
    (v : DimensionType.t) (c s t : string) :
  is_Some (tableAt (writeRow own c0 s0 t0 col v) c s t)
  ↔ (c = c0 ∧ s = s0 ∧ t = t0) ∨ is_Some (tableAt own c s t).
Proof.
  unfold writeRow, tableAt.
  destruct (decide (c = c0)) as [-> | Hc].
  - rewrite lookup_insert_eq. simpl.
    destruct (decide (s = s0)) as [-> | Hs].
    + rewrite lookup_insert_eq. simpl.
      destruct (decide (t = t0)) as [-> | Ht].
      * rewrite lookup_insert_eq. split; [by left | by eexists].
      * rewrite lookup_insert_ne by done.
        destruct (own !! c0) as [schemas |]; simpl;
          [destruct (schemas !! s0) as [tables |]; simpl |];
          rewrite ?lookup_empty; naive_solver.
    + rewrite lookup_insert_ne by done.
      destruct (own !! c0) as [schemas |]; simpl;
        rewrite ?lookup_empty; naive_solver.
  - rewrite lookup_insert_ne by done. naive_solver.
Qed.

Lemma tableAt_ownStep (requests : list Request.t) (own : Catalog) (row : Row)
    (c s t : string) :
  is_Some (tableAt (ownStep requests own row) c s t)
  ↔ inTable requests c s t row ∨ is_Some (tableAt own c s t).
Proof.
  unfold ownStep, inTable. case_decide as Hreq.
  - destruct (rowRequested_triple _ _ Hreq) as (c0 & s0 & t0 & Hc & Hs & Ht & _).
    rewrite Hc, Hs, Ht. simpl. rewrite tableAt_writeRow. naive_solver.
  - naive_solver.
Qed.

Lemma tableAt_foldl_ownStep (requests : list Request.t) (rows : list Row)
    (own : Catalog) (c s t : string) :
  is_Some (tableAt (foldl (ownStep requests) own rows) c s t)
  ↔ (∃ row, row ∈ rows ∧ inTable requests c s t row)
    ∨ is_Some (tableAt own c s t).
Proof.
  revert own. induction rows as [| row rows IH]; intros own; simpl.
  - split; [by right |].
    intros [(row & Hin & _) | H]; [by apply elem_of_nil in Hin | done].
  - rewrite IH, tableAt_ownStep. setoid_rewrite elem_of_cons. naive_solver.
Qed.

(** The tables of the reduction are those of the requested rows. *)
Lemma tableAt_ownCatalog (requests : list Request.t) (rows : list Row)
    (c s t : string) :
  is_Some (tableAt (ownCatalog requests rows) c s t)
  ↔ ∃ row, row ∈ rows ∧ inTable requests c s t row.
Proof.
  unfold ownCatalog. rewrite tableAt_foldl_ownStep. split; [| by left].
  intros [H | [columns H]]; [done |].
  unfold tableAt in H. by rewrite lookup_empty in H.
Qed.










(** X13. When no row of the list is requested, in particular for the empty
    list of rows, the result is the empty object; and a plain result is
    the empty object only then. *)
Theorem catalogOfRows_empty_iff (requests : list Request.t) (rows : list Row) :
  (Forall (λ row, ¬ rowRequested requests row) rows →
   catalogOfRows requests rows = ∅)
  ∧ (plainRows requests rows →
     catalogOfRows requests rows = ∅ →
     Forall (λ row, ¬ rowRequested requests row) rows).
Proof.
  split.
  - intros Hnone. unfold catalogOfRows. rewrite foldl_catalogStep_filter.
    assert (filter (rowRequested requests) rows = []) as ->; [| done].
    induction Hnone as [| row rows Hrow _ IH]; [done |].
    by rewrite filter_cons_False.
  - intros _ Hempty. apply catalogOfRows_Plain in Hempty as [_ Hempty].
    apply Forall_forall. intros row Hin Hreq.
    destruct (rowRequested_triple _ _ Hreq) as (c & s & t & Hc & Hs & Ht & _).
    assert (is_Some (tableAt (ownCatalog requests rows) c s t)) as [columns Htb].
    { apply tableAt_ownCatalog. by exists row. }
    rewrite <- Hempty in Htb. unfold tableAt in Htb.
    by rewrite lookup_empty in Htb.
Qed.

Lemma catalogOfRows_empty_iff_witness :
  catalogOfRows exampleRequests [exampleRow "db" "s2" "users" "id" "uuid"] = ∅.
Proof.
  apply (catalogOfRows_empty_iff exampleRequests). by_evaluation.
Defined.




(** With two requested rows that give different types for one column the
    order does matter: the later row is kept. *)
Example catalogOfRows_row_order_needs_consistency :
  catalogOfRows exampleRequests
    [ exampleRow "db" "public" "users" "id" "integer";
      exampleRow "db" "public" "users" "id" "text" ]
  ≠ catalogOfRows exampleRequests
      [ exampleRow "db" "public" "users" "id" "text";
        exampleRow "db" "public" "users" "id" "integer" ].
Proof. by_evaluation. Qed.

Lemma catalogStep_requests_set (requests1 requests2 : list Request.t)
    (acc : CatalogObject) (row : Row) :
  (∀ r, r ∈ requests1 ↔ r ∈ requests2) →
  catalogStep requests1 acc row = catalogStep requests2 acc row.
Proof.
  intros Hsame.
  assert (rowRequested requests1 row ↔ rowRequested requests2 row) as Hiff.
  { unfold rowRequested. rewrite !Exists_exists. naive_solver. }
  rewrite <- !find_requestMatches_is_Some in Hiff. unfold catalogStep.
  destruct (find _ requests1) as [r1 |], (find _ requests2) as [r2 |];
    [done | | | done].
  - destruct Hiff as [Hiff _]. by destruct Hiff.
  - destruct Hiff as [_ Hiff]. by destruct Hiff.
Qed.

(** X15. The object computed from the rows depends on the requests only as
    a set: two lists with the same entries, in any order and with any
    repetitions, give the same object for the same rows. *)
Theorem catalogOfRows_requests_set (requests1 requests2 : list Request.t)
    (rows : list Row) :
  (∀ r, r ∈ requests1 ↔ r ∈ requests2) →
  catalogOfRows requests1 rows = catalogOfRows requests2 rows.
Proof.
  intros Hsame. unfold catalogOfRows. generalize (∅ : CatalogObject) as acc.
  induction rows as [| row rows IH]; intros acc; simpl; [done |].
  by rewrite (catalogStep_requests_set requests1 requests2), IH.
Qed.

Lemma catalogOfRows_requests_set_witness :
  catalogOfRows exampleRequests [exampleRow "db" "public" "orders" "id" "uuid"]
  = catalogOfRows (reverse exampleRequests ++ exampleRequests)
      [exampleRow "db" "public" "orders" "id" "uuid"].
Proof.
  apply catalogOfRows_requests_set. intros r.
  rewrite elem_of_app, elem_of_reverse. tauto.
Defined.

(** ** Requested rows with ordinary names *)



(** A later requested row for the same column replaces the type. *)
Example catalogOfRows_last_row_wins :
  catalogOfRows exampleRequests
    [ exampleRow "db" "public" "users" "id" "integer";
      exampleRow "db" "public" "users" "id" "text" ]
  = Plain {[ "db" := {[ "public" :=
              {[ "users" := {[ "id" := DimensionType.STRING ]} ]} ]} ]}.
Proof. by_evaluation. Qed.

(** ** The sets of requested names *)

Lemma Set_add_present (s : list string) (x : string) : x ∈ s → Set_add s x = s.
Proof. intros Hin. unfold Set_add. by rewrite bool_decide_eq_true_2. Qed.

Lemma requestSets_snoc (requests : list Request.t) (r : Request.t) :
  requestSets (requests ++ [r])
  = RequestSets.mk
      (Set_add (RequestSets.databases (requestSets requests))
               (quoted (Request.database r)))
      (Set_add (RequestSets.schemas (requestSets requests))
               (quoted (Request.schema r)))
      (Set_add (RequestSets.tables (requestSets requests))
               (quoted (Request.table r))).
Proof. unfold requestSets. by rewrite foldl_snoc. Qed.

(** X16. A further request whose database, schema and table each occur in
    some request already present, in the same one or in different ones,
    changes neither the three sets nor the text of the query. *)
Theorem redundant_request_keeps_query (requests : list Request.t)
    (r : Request.t) :
  Request.database r ∈ Request.database <$> requests →
  Request.schema r ∈ Request.schema <$> requests →
  Request.table r ∈ Request.table <$> requests →
  requestSets (requests ++ [r]) = requestSets requests
  ∧ catalogQuery (requestSets (requests ++ [r]))
    = catalogQuery (requestSets requests).
Proof.
  intros Hd Hs Ht.
  assert (requestSets (requests ++ [r]) = requestSets requests) as Hsets;
    [| by rewrite Hsets].
  rewrite requestSets_snoc, requestSets_spec. simpl.
  rewrite !Set_add_present;
    [done | apply list_elem_of_fmap_2, elem_of_dedupFirstOccurrence; done ..].
Qed.

Lemma redundant_request_keeps_query_witness :
  catalogQuery (requestSets (exampleRequests ++ [Request.mk "d'b" "public" "orders"]))
  = catalogQuery (requestSets exampleRequests).
Proof.
  apply (redundant_request_keeps_query exampleRequests
           (Request.mk "d'b" "public" "orders")); by_evaluation.
Defined.

(** ** The fields record and duplicate column names *)

Lemma size_list_to_set_le (l : list string) :
  (size (list_to_set (C:=gset string) l) ≤ length l)%nat.
Proof.
  induction l as [| x l IH]; [by rewrite list_to_set_nil, size_empty |].
  rewrite list_to_set_cons, size_union_alt, size_singleton. cbn [length].
  assert (list_to_set l ∖ {[x]} ⊆ list_to_set (C:=gset string) l) as Hsub
    by set_solver.
  apply subseteq_size in Hsub. lia.
Qed.

Lemma size_list_to_set_NoDup (l : list string) :
  size (list_to_set (C:=gset string) l) = length l ↔ NoDup l.
Proof.
  split; [| apply size_list_to_set].
  induction l as [| x l IH]; [constructor |].
  rewrite list_to_set_cons. cbn [length]. intros Hsize.
  pose proof (size_list_to_set_le l) as Hle.
  destruct (decide (x ∈ l)) as [Hin | Hnot].
  - assert ({[x]} ∪ list_to_set l = list_to_set (C:=gset string) l) as Heq
      by set_solver.
    rewrite Heq in Hsize. lia.
  - constructor; [done |]. apply IH.
    rewrite size_union, size_singleton in Hsize by set_solver. lia.
Qed.

(** X17. The fields record has at most as many entries as the result has
    columns, and exactly as many if and only if no two columns have the
    same name: with a repeated name the record is smaller than the list of
    columns. *)
Theorem fieldsRecord_size (fields : list FieldDef.t) :
  (size (PostgresClient.fieldsRecord fields) ≤ length fields)%nat
  ∧ (size (PostgresClient.fieldsRecord fields) = length fields
     ↔ NoDup (FieldDef.name <$> fields)).
Proof.
  rewrite <- (size_dom (D:=gset string)), fieldsRecord_dom.
  rewrite <- (length_fmap FieldDef.name fields). split.
  - apply size_list_to_set_le.
  - apply size_list_to_set_NoDup.
Qed.

Lemma fieldsRecord_size_witness :
  size (PostgresClient.fieldsRecord
          [FieldDef.mk "id" builtins.INT4; FieldDef.mk "flag" builtins.BOOL])
  = 2%nat.
Proof.
  apply (fieldsRecord_size
           [FieldDef.mk "id" builtins.INT4; FieldDef.mk "flag" builtins.BOOL]).
  by_evaluation.
Defined.

(** ** From credentials to the calls of a successful test *)

(** X18. For a client built by the constructor, a [test] that succeeds has
    made these calls and no others: with tunnel settings, the SSH
    connection with those settings, the tunnel request for the
    percent-encoded host and the port of the credentials, the creation of
    the pool for 'localhost' and the tunnel's local port, and the query
    'SELECT 1' on it; without tunnel settings, the creation of the pool
    for the percent-encoded host and the port of the credentials, and the
    query. Database, user and password of the pool are the percent-encoded
    credentials in both cases. *)
Theorem constructed_client_test_calls (w : World)
    (credentials : FullPostgresCredentials.t) (client : PostgresClient.t)
    (log log' : list Call) :
  PostgresWarehouseClient.constructor credentials = Returned client →
  PostgresClient.test w client log = (Returned tt, log') →
  ∃ pool host,
    encodeURIComponent (FullPostgresCredentials.host credentials)
      = Returned host
    ∧ encodeURIComponent (FullPostgresCredentials.dbname credentials)
      = Returned (PoolConfig.database pool)
    ∧ encodeURIComponent (FullPostgresCredentials.user credentials)
      = Returned (PoolConfig.user pool)
    ∧ encodeURIComponent (FullPostgresCredentials.password credentials)
      = Returned (PoolConfig.password pool)
    ∧ match FullPostgresCredentials.sshTunnel credentials with
      | None =>
          PoolConfig.host pool = host
          ∧ PoolConfig.port pool = FullPostgresCredentials.port credentials
          ∧ log' = log ++ [NewPool pool; PoolQuery pool "SELECT 1"]
      | Some tunnel =>
          let sshConfig :=
            SSHConfig.mk (SSHTunnelConfigSecrets.username tunnel)
                         (SSHTunnelConfigSecrets.privateKey tunnel)
                         (SSHTunnelConfigSecrets.port tunnel)
                         (SSHTunnelConfigSecrets.host tunnel) in
          PoolConfig.host pool = "localhost"
          ∧ log' = log ++ [ SshConnect sshConfig;
                            SshAddTunnel sshConfig host
                              (FullPostgresCredentials.port credentials);
                            NewPool pool; PoolQuery pool "SELECT 1" ]
      end.
Proof.
  intros Hnew Htest.
  destruct (constructor_Returned _ _ Hnew)
    as ((Hwh & Hwd & Hwu & Hwp) & Hhost & Hdb & Huser & Hpw & Hport & Htunnel & _).
  rewrite test_unfold in Htest.
  destruct (PostgresClient.runQuery w client "SELECT 1" log)
    as [[out | e] log1] eqn:Hrun; [| done].
  injection Htest as ->.
  apply runQuery_returns_iff in Hrun as (pool & log0 & results & Hc & _ & -> & _).
  pose proof (connect_returns_pool _ _ _ _ _ Hc) as Hcfg.
  rewrite Htunnel in Hcfg.
  exists pool, (Encode (FullPostgresCredentials.host credentials)).
  unfold encodeURIComponent. rewrite Hwh, Hwd, Hwu, Hwp.
  destruct (FullPostgresCredentials.sshTunnel credentials) as [tunnel |].
  - destruct Hcfg as (_ & Hh & Hd & Hu & Hp & _ & ->). simpl.
    rewrite Hd, Hu, Hp, Hdb, Huser, Hpw, <- Hhost, <- Hport, <- app_assoc. done.
  - destruct Hcfg as [-> ->]. rewrite Hdb, Huser, Hpw, Hhost, <- app_assoc. done.
Qed.

Lemma constructed_client_test_calls_witness :
  ∃ client log',
    PostgresWarehouseClient.constructor exampleCredentials = Returned client
    ∧ PostgresClient.test healthyWorld client [] = (Returned tt, log')
    ∧ ∃ pool,
        PoolConfig.password pool = "p%2Fw%3F"
        ∧ PoolConfig.host pool = "localhost"
        ∧ log' = [ SshConnect (SSHConfig.mk "tunnel" "KEY" 22 "bastion");
                   SshAddTunnel (SSHConfig.mk "tunnel" "KEY" 22 "bastion")
                                "db.example.com" 5432;
                   NewPool pool; PoolQuery pool "SELECT 1" ].
Proof.
  eexists _, _. split; [reflexivity |]. split; [reflexivity |].
  destruct (constructed_client_test_calls healthyWorld exampleCredentials _ [] _
              eq_refl eq_refl) as (pool & host & Hhost & _ & _ & Hp & Hh & Hlog).
  injection Hhost as <-. injection Hp as Hp.
  exists pool. split; [by rewrite <- Hp |]. split; [exact Hh |]. exact Hlog.
Defined.
